(** * Flask-UMongoRest: request-to-query translation and object diffing

    A shallow embedding of [flask_umongorest/operators.py] and of the
    query, projection and mutation methods of [Resource] in
    [flask_umongorest/resources.py], followed by the properties of the
    natural-language specification that were checked against it.

    Python values are embedded as the inductive type [pyval]; Python
    dictionaries that the code iterates are association lists in insertion
    order; exceptions are the [Raise] branch of [result]. *)

From Stdlib Require Import ZArith Ascii DecimalString.
From stdpp Require Import gmap strings list.

Local Open Scope Z_scope.
Set Warnings "-register-all".

(** ** Python prelude *)

Module Py.

(** Payload of [exceptions.ValidationError]: the code raises it either with
    [{'error': msg}] or with [{'errors': [msg]}]. *)
Inductive verr :=
| ErrorMsg (msg : string)
| ErrorList (msgs : list string).

Inductive exn :=
| ValidationError (payload : verr)
| UnknownFieldError
| TypeError
| KeyError (key : string)
| ValueError
| AttributeError
| AssertionError
| RecursionError.

Inductive result (A : Type) :=
| Ok (a : A)
| Raise (e : exn).
Arguments Ok {A} a.
Arguments Raise {A} e.

Definition is_ok {A} (r : result A) : bool :=
  match r with Ok _ => true | Raise _ => false end.

#[export] Instance result_ret : MRet result := fun A a => Ok a.
#[export] Instance result_bind : MBind result := fun A B f m =>
  match m with Ok a => f a | Raise e => Raise e end.

(** The double-quote and single-quote characters. *)
Definition dq : string := String "034"%char EmptyString.
Definition sq : string := String "039"%char EmptyString.

Definition str_truthy (s : string) : bool :=
  match s with EmptyString => false | String _ _ => true end.

Definition str_eqb (a b : string) : bool := bool_decide (a = b).

(** [c in s] for a one-character needle. *)
Fixpoint contains_char (c : ascii) (s : string) : bool :=
  match s with
  | EmptyString => false
  | String a s' => if bool_decide (a = c) then true else contains_char c s'
  end.

Definition rev_string (cur : list ascii) : string :=
  String.string_of_list_ascii (rev cur).

(** [s.split(sep)] for a non-empty separator: leftmost, non-overlapping
    occurrences.  [skip] counts the characters of a separator occurrence
    that are still to be consumed; [cur] is the current piece, reversed. *)
Fixpoint split_go (sep : string) (s : string) (skip : nat) (cur : list ascii)
  : list string :=
  match s with
  | EmptyString => [rev_string cur]
  | String c s' =>
      match skip with
      | S k => split_go sep s' k cur
      | O =>
          if String.prefix sep s
          then rev_string cur :: split_go sep s' (Nat.pred (String.length sep)) []
          else split_go sep s' O (c :: cur)
      end
  end.

Definition split (sep s : string) : list string := split_go sep s O [].

(** [sep.join(l)] *)
Fixpoint join (sep : string) (l : list string) : string :=
  match l with
  | [] => ""
  | [x] => x
  | x :: l' => x +:+ sep +:+ join sep l'
  end.

(** [s.lstrip(chars)]: drops leading characters that occur in [chars]. *)
Fixpoint lstrip (chars : string) (s : string) : string :=
  match s with
  | EmptyString => EmptyString
  | String c s' => if contains_char c chars then lstrip chars s' else s
  end.

(** ["%d" % z] *)
Definition string_of_Z (z : Z) : string := NilZero.string_of_int (Z.to_int z).

(** Dictionaries in insertion order. *)
Definition dict (V : Type) := list (string * V).

Fixpoint dict_get {V} (d : dict V) (k : string) : option V :=
  match d with
  | [] => None
  | (k', v) :: d' => if str_eqb k k' then Some v else dict_get d' k
  end.

Definition dict_mem {V} (d : dict V) (k : string) : bool :=
  match dict_get d k with Some _ => true | None => false end.

(** [d[k] = v]: an existing key keeps its position. *)
Fixpoint dict_set {V} (d : dict V) (k : string) (v : V) : dict V :=
  match d with
  | [] => [(k, v)]
  | (k', v') :: d' =>
      if str_eqb k k' then (k, v) :: d' else (k', v') :: dict_set d' k v
  end.

Definition dict_truthy {V} (d : dict V) : bool :=
  match d with [] => false | _ :: _ => true end.

(** [x in l] on lists of strings. *)
Definition list_mem (x : string) (l : list string) : bool :=
  existsb (str_eqb x) l.

(** [set(l)], kept as a duplicate-free list.  Python leaves the iteration
    order of a set unspecified; the embedding iterates in order of first
    occurrence. *)
Fixpoint to_set (l : list string) : list string :=
  match l with
  | [] => []
  | x :: l' => x :: filter (fun y => x ≠ y) (to_set l')
  end.

Definition set_union (a b : list string) : list string := to_set (a ++ b).

(** [l.remove(x)]: removes the first occurrence, [ValueError] when absent. *)
Fixpoint list_remove (x : string) (l : list string) : result (list string) :=
  match l with
  | [] => Raise ValueError
  | y :: l' =>
      if str_eqb x y then Ok l'
      else l'' ← list_remove x l'; Ok (y :: l'')
  end.

(** Field descriptors of the document library, as far as the code tells
    them apart with [isinstance]. *)
Inductive finst :=
| FReference
| FGenericReference
| FList
| FDict (elem : option finst)
| FScalar.

(** Python values.  [VRef] is a [PyMongoReference] (the collection name of
    its document class and its [pk]); [VCallable] a function or method;
    [VDoc] a document instance with its attributes, its [_db_data] (when it
    has that attribute) and its [_fields]. *)
Inductive pyval :=
| VNone
| VBool (b : bool)
| VInt (z : Z)
| VStr (s : string)
| VList (l : list pyval)
| VDict (d : list (string * pyval))
| VObjectId (s : string)
| VDBRef (coll : string) (id : pyval)
| VRef (coll : option string) (pk : pyval)
| VCallable (name : string)
| VDoc (cls : string) (attrs : list (string * pyval))
       (db_data : option (list (string * pyval)))
       (fields : list (string * finst)).

(** Induction on Python values, with the hypothesis available for the
    elements of lists and the values of dictionaries. *)
Section PyvalInd.
Variable P : pyval → Prop.
Hypothesis HNone : P VNone.
Hypothesis HBool : ∀ b, P (VBool b).
Hypothesis HInt : ∀ z, P (VInt z).
Hypothesis HStr : ∀ s, P (VStr s).
Hypothesis HList : ∀ l, Forall P l → P (VList l).
Hypothesis HDict : ∀ d, Forall (fun kv => P kv.2) d → P (VDict d).
Hypothesis HObjectId : ∀ s, P (VObjectId s).
Hypothesis HDBRef : ∀ c i, P i → P (VDBRef c i).
Hypothesis HRef : ∀ c pk, P pk → P (VRef c pk).
Hypothesis HCallable : ∀ n, P (VCallable n).
Hypothesis HDoc : ∀ cls attrs db flds,
  Forall (fun kv => P kv.2) attrs →
  match db with
  | Some d => Forall (fun kv => P kv.2) d
  | None => True
  end →
  P (VDoc cls attrs db flds).


End PyvalInd.

(** [bool(v)] *)
Definition truthy (v : pyval) : bool :=
  match v with
  | VNone => false
  | VBool b => b
  | VInt z => negb (z =? 0)
  | VStr s => str_truthy s
  | VList l => match l with [] => false | _ => true end
  | VDict d => dict_truthy d
  | _ => true
  end.

(** A raw parameter value after normalisation: [None] is Python's [None]. *)
Definition of_opt (v : option string) : pyval :=
  match v with None => VNone | Some s => VStr s end.

(** ["{}".format(v)] for a normalised parameter value. *)
Definition format_opt (v : option string) : string :=
  match v with None => "None" | Some s => s end.

End Py.
Export Py.

(** ** operators.py *)

Module Operators.

Inductive op_class :=
| Operator | Ne | Lt | Lte | Gt | Gte | Exact | In | Boolean | Startswith.

(** The class attribute [op]. *)
Definition op (c : op_class) : string :=
  match c with
  | Operator => "exact"
  | Ne => "ne"
  | Lt => "lt"
  | Lte => "lte"
  | Gt => "gt"
  | Gte => "gte"
  | Exact => "exact"
  | In => "in"
  | Boolean => "exact"
  | Startswith => "startswith"
  end.

(** An entry of a resource's [filters]: an operator class, or an instance
    built with [allow_negation].  A class has [allow_negation = False]. *)
Record operator := mkOp { cls : op_class; allow_negation : bool }.

Definition of_class (c : op_class) : operator := mkOp c false.

(** [Operator.prepare_queryset_kwargs], the method of the base class, for
    an operator whose [op] attribute is [op_name]. *)
Definition base_prepare_queryset_kwargs (op_name field : string)
    (value : pyval) (negate : bool) : pyval :=
  if negate
  then VDict [(field, VDict [("$not", VDict [("$" +:+ op_name, value)])])]
  else VDict [(field, VDict [("$" +:+ op_name, value)])].

(** [prepare_queryset_kwargs] as each class defines or inherits it:
    [Exact], [In], [Boolean] and [Startswith] override the base method. *)
Definition prepare_queryset_kwargs (o : operator) (field : string)
    (value : option string) (negate : bool) : result pyval :=
  match cls o with
  | Exact =>
      if negate then Ok (VDict [(field, VDict [("$ne", of_opt value)])])
      else Ok (VDict [(field, of_opt value)])
  | In =>
      match value with
      | None => Raise TypeError
      | Some s =>
          if contains_char ","%char s then
            let value := VList (VStr <$> split "," s) in
            let op := if negate then "nin" else op In in
            Ok (VDict [(field, VDict [(op, value)])])
          else
            let op := if negate then "ne" else "" in
            Ok (VDict [(field, VDict [(op, VStr s)])])
      end
  | Boolean =>
      let bool_value :=
        match value with
        | Some s => negb (str_eqb s "false")
        | None => true
        end in
      let bool_value := if negate then negb bool_value else bool_value in
      Ok (VDict [(field, VBool bool_value)])
  | Startswith =>
      Ok (VDict [(field, VDict [("$regex", VStr ("^" +:+ format_opt value))])])
  | c => Ok (base_prepare_queryset_kwargs (op c) field (of_opt value) negate)
  end.

Definition apply (o : operator) (field : string) (value : option string)
    (negate : bool) : result pyval :=
  prepare_queryset_kwargs o field value negate.

End Operators.

(** ** resources.py *)

Module Resources.
Import Operators.

(** Modelled from the spec: [flask_umongorest.methods] is not among the
    sources; the view methods are the ones [example/app.py] registers plus
    the bulk-update mode that [get_objects] tests for. *)
Inductive method := Create | Update | BulkUpdate | Fetch | List | Delete.

#[export] Instance method_eq_dec : EqDecision method.
Proof. solve_decision. Defined.

(** The document class bound to a resource: its declared fields
    ([DataProxy._fields]) and the other attributes of the class. *)
Record document_class := mkDocument {
  doc_name : string;
  doc_fields : dict finst;
  doc_attrs : dict pyval
}.

(** The class-level declarations of a resource.  [callables] lists the
    names [n] for which [hasattr(self, n) and callable(getattr(self, n))].
    [child_document_resources] maps a document class to a resource class;
    the source holds the class itself, the embedding its name, so that
    the tables of two classes can refer to each other (see
    [resource_class] below). *)
Inductive Resource := mkResource {
  name : string;
  document : document_class;
  fields : option (list string);
  rename_fields : dict string;
  allowed_ordering : list string;
  paginate : bool;
  default_limit : Z;
  max_limit : Z;
  bulk_update_limit : Z;
  child_document_resources : dict string;
  default_child_resource_document : option string;
  uri_prefix : option string;
  filters : dict (list operator);
  callables : list string
}.

(** What the code takes from its environment: the standard library
    ([urlparse], [int]), the document store (which documents a filter
    selects, how a cursor sorts, [to_dbref], and committing then reloading
    a document), the helpers of [flask_umongorest.utils], which is not
    among the sources ([equal], [isbound]), Python's [==] on identifiers,
    and the calls of user-supplied callables; and from the program it is
    part of: the resource class that a name denotes, and the number of
    nested delegations that the interpreter's recursion limit leaves
    room for. *)
Class External := {
  urlparse_path : string → result string;
  py_int : string → option Z;
  doc_matches : pyval → pyval → bool;
  sort_docs : list string → list pyval → list pyval;
  equal : pyval → pyval → bool;
  py_eq : pyval → pyval → bool;
  isbound : pyval → bool;
  py_call : pyval → list pyval → result pyval;
  call_attr : string → string → pyval → result pyval;
  to_dbref : pyval → result pyval;
  commit_reload : pyval → result pyval;
  resource_class : string → Resource;
  recursion_limit : nat
}.

(** What [__init__] computes. *)

Definition get_fields (r : Resource) : list string :=
  match fields r with
  | Some fs => fs
  | None => (doc_fields (document r)).*1
  end.

Definition get_optional_fields (r : Resource) : list string := [].

Definition get_max_limit (r : Resource) : Z := max_limit r.

Definition get_rename_fields (r : Resource) : dict string := rename_fields r.

Definition _reverse_rename_fields (r : Resource) : gmap string string :=
  foldl (fun m kv => <[kv.2 := kv.1]> m) ∅ (get_rename_fields r).

(** The assertion at the end of the renaming set-up in [__init__]:
    [len(self._rename_fields) == len(self._reverse_rename_fields)].  The
    [len] of a dictionary is the number of its keys. *)
Definition init_assertion (r : Resource) : bool :=
  bool_decide (size (list_to_set (C := gset string) (get_rename_fields r).*1)
               = size (_reverse_rename_fields r)).

Definition rename (r : Resource) (field : string) : string :=
  default field (dict_get (get_rename_fields r) field).

Definition reverse_rename (r : Resource) (field : string) : string :=
  default field (_reverse_rename_fields r !! field).

Definition field_filters (operators : list operator) : gmap string operator :=
  foldl (fun ff o =>
           let ff := if str_eqb (op (cls o)) "exact" then <["" := o]> ff else ff in
           <[op (cls o) := o]> ff) ∅ operators.

Definition get_filters (r : Resource) : gmap string (gmap string operator) :=
  foldl (fun fs fo => <[fo.1 := field_filters fo.2]> fs) ∅ (filters r).

Section WithExternal.
Context `{External}.

(** *** apply_filters *)

(** Special handling of the raw value at the head of the loop body. *)
Definition normalize_value (r : Resource) (value : string) : result (option string) :=
  value ← (match uri_prefix r with
           | Some prefix =>
               if str_truthy prefix
               then uri ← urlparse_path value; Ok (lstrip prefix uri)
               else Ok value
           | None => Ok value
           end);
  if str_eqb value "" then Ok None
  else if list_mem value [dq +:+ dq; sq +:+ sq] then Ok (Some "")
  else Ok (Some value).

Definition ops_truthy (allowed : option (gmap string operator)) : bool :=
  match allowed with
  | Some ops => negb (bool_decide (ops = ∅))
  | None => false
  end.

(** The loop [for i in range(len(parts) + 1, 0, -1)], entered with
    [i = S i']; returns [field], [allowed_operators] and [parts] as the
    loop leaves them. *)
Fixpoint find_field (flt : gmap string (gmap string operator))
    (parts : list string) (i' : nat)
  : string * option (gmap string operator) * list string :=
  let field := join "__" (take (S i') parts) in
  let allowed := flt !! field in
  if ops_truthy allowed then (field, allowed, drop (S i') parts)
  else match i' with
       | O => (field, allowed, parts)
       | S j => find_field flt parts j
       end.

(** [parts[-1]] and [parts.pop()] *)
Definition last_part (parts : list string) : string := List.last parts "".

(** The operator suffix and the negation flag read off the remaining
    parts, with the parts left over. *)
Definition split_suffix (allowed : gmap string operator) (parts : list string)
  : string * bool * list string :=
  match parts with
  | [] => ("", false, [])
  | _ =>
      let '(op_name, parts) :=
        if bool_decide (is_Some (allowed !! last_part parts))
        then (last_part parts, removelast parts)
        else ("", parts) in
      match parts with
      | [] => (op_name, false, parts)
      | _ =>
          if str_eqb (last_part parts) "not"
          then (op_name, true, removelast parts)
          else (op_name, false, parts)
      end
  end.

(** One iteration of the loop over [params.items()]: [Ok None] is a
    [continue], [Ok (Some f)] appends the fragment [f]. *)
Definition filter_param (r : Resource) (key value : string)
  : result (option pyval) :=
  value ← normalize_value r value;
  let '(field, allowed_operators, parts) :=
    let parts := split "__" key in
    find_field (get_filters r) parts (length parts) in
  match allowed_operators with
  | None => Ok None
  | Some allowed =>
      let '(op_name, negate, parts) := split_suffix allowed parts in
      match allowed !! op_name with
      | None => Ok None
      | Some operator =>
          if negate && negb (allow_negation operator) then Ok None
          else
            let field :=
              match parts with
              | [] => field
              | _ => field +:+ "__" +:+ join "__" parts
              end in
            let field := reverse_rename r field in
            f ← Operators.apply operator field value negate;
            Ok (Some f)
      end
  end.

Fixpoint filter_loop (r : Resource) (params : dict string)
    (filters : list pyval) : result (list pyval) :=
  match params with
  | [] => Ok filters
  | (key, value) :: params' =>
      f ← filter_param r key value;
      match f with
      | None => filter_loop r params' filters
      | Some f => filter_loop r params' (filters ++ [f])
      end
  end.

Definition apply_filters (r : Resource) (params : dict string) : result pyval :=
  filters ← filter_loop r params [];
  match filters with
  | [] => Ok (VDict [])
  | _ => Ok (VDict [("$and", VList filters)])
  end.

(** *** apply_ordering *)

Definition apply_ordering (r : Resource) (params : dict string)
  : option (list string) :=
  match allowed_ordering r, dict_get params "_order_by" with
  | _ :: _, Some order_by =>
      if list_mem order_by (allowed_ordering r)
      then Some (reverse_rename r <$> split "," order_by)
      else None
  | _, _ => None
  end.

(** *** get_skip_and_limit *)

(** Modelled from the spec: [utils.isint] is not among the sources; a value
    is an integer when [int] accepts it.  The argument is the result of
    [params.get(key, 1)], so an absent parameter counts as an integer. *)
Definition isint (v : option string) : bool :=
  match v with
  | Some s => bool_decide (is_Some (py_int s))
  | None => true
  end.

(** [int(s)] *)
Definition int (s : string) : result Z :=
  match py_int s with
  | Some z => Ok z
  | None => Raise ValueError
  end.

(** [int(params.get(key, dflt))] for an integer default. *)
Definition int_param (params : dict string) (key : string) (dflt : Z) : result Z :=
  match dict_get params key with
  | Some s => int s
  | None => Ok dflt
  end.

Definition not_integer_error (key : string) (got : string) : exn :=
  ValidationError (ErrorMsg
    (key +:+ " must be an integer (got " +:+ dq +:+ got +:+ dq +:+ " instead).")).

Definition max_limit_error (max_limit : Z) : exn :=
  ValidationError (ErrorMsg
    ("The limit you set is larger than the maximum limit for this resource (max_limit = "
       +:+ string_of_Z max_limit +:+ ").")).

Definition negative_skip_error (got : string) : exn :=
  ValidationError (ErrorMsg
    ("_skip must be a non-negative integer (got " +:+ dq +:+ got +:+ dq +:+ " instead).")).

(** [params.get(key) and int(params[key]) <cmp> bound] *)
Definition present_and (params : dict string) (key : string) (test : Z → bool)
  : result bool :=
  match dict_get params key with
  | Some s => if str_truthy s then z ← int s; Ok (test z) else Ok false
  | None => Ok false
  end.

Definition get_skip_and_limit (r : Resource) (params : dict string)
  : result (Z * Z) :=
  let max_limit := get_max_limit r in
  if paginate r then
    if negb (isint (dict_get params "_limit"))
    then Raise (not_integer_error "_limit" (default "" (dict_get params "_limit")))
    else if negb (isint (dict_get params "_skip"))
    then Raise (not_integer_error "_skip" (default "" (dict_get params "_skip")))
    else
      too_large ← present_and params "_limit" (fun z => max_limit <? z);
      if too_large : bool then Raise (max_limit_error max_limit)
      else
        negative ← present_and params "_skip" (fun z => z <? 0);
        if negative : bool
        then Raise (negative_skip_error (default "" (dict_get params "_skip")))
        else
          l ← int_param params "_limit" (default_limit r);
          let limit := Z.min l max_limit in
          skip ← int_param params "_skip" 0;
          Ok (skip, limit)
  else Ok (0, max_limit).

(** *** The document store *)

(** A cursor of the store, as the code uses it (spec, External
    interfaces): the documents the filter selects, and the skip, limit and
    sort options, which take effect when the cursor is iterated: sort, then
    skip, then limit.  A limit of 0 is no limit, and a negative limit
    returns as many documents as its absolute value. *)
Record cursor := mkCursor {
  c_docs : list pyval;
  c_skip : nat;
  c_limit : Z;
  c_sort : option (list string)
}.

Definition store := list pyval.

Definition find (st : store) (flt : pyval) : cursor :=
  mkCursor (filter (fun d => doc_matches flt d = true) st) 0 0 None.

Definition cursor_skip (c : cursor) (n : Z) : result cursor :=
  if n <? 0 then Raise ValueError
  else Ok (mkCursor (c_docs c) (Z.to_nat n) (c_limit c) (c_sort c)).

Definition cursor_limit (c : cursor) (n : Z) : cursor :=
  mkCursor (c_docs c) (c_skip c) n (c_sort c).

Definition cursor_sort (c : cursor) (order : list string) : cursor :=
  mkCursor (c_docs c) (c_skip c) (c_limit c) (Some order).

Definition cursor_count (c : cursor) : Z := Z.of_nat (length (c_docs c)).

Definition cursor_list (c : cursor) : list pyval :=
  let sorted :=
    match c_sort c with
    | Some order => sort_docs order (c_docs c)
    | None => c_docs c
    end in
  let skipped := drop (c_skip c) sorted in
  if c_limit c =? 0 then skipped else take (Z.abs_nat (c_limit c)) skipped.

(** *** get_objects *)

Definition is_bulk (view_method : option method) : bool :=
  bool_decide (view_method = Some BulkUpdate).

Definition bulk_limit_error (r : Resource) : exn :=
  ValidationError (ErrorList
    ["It's not allowed to update more than "
       +:+ string_of_Z (bulk_update_limit r) +:+ " objects at once"]).

(** [get_objects] reads the store and hands it on: the second component
    of the result is the store after the call. *)
Definition get_objects (r : Resource) (view_method : option method)
    (params : dict string) (st : store)
  : result (list pyval * option bool * Z) * store :=
  (query_filter ← apply_filters r params;
   let query_order := apply_ordering r params in
   let query_courser := find st query_filter in
   '(limit, query_courser) ←
     (if is_bulk view_method then
        let limit := bulk_update_limit r in
        Ok (limit, cursor_limit query_courser limit)
      else
        '(skip, limit) ← get_skip_and_limit r params;
        c ← cursor_skip query_courser skip;
        Ok (limit, cursor_limit c (limit + 1)));
   let query_courser :=
     match query_order with
     | Some (p :: ps) => cursor_sort query_courser (p :: ps)
     | _ => query_courser
     end in
   let count := cursor_count query_courser in
   let objs := cursor_list query_courser in
   if is_bulk view_method && (bulk_update_limit r <=? Z.of_nat (length objs))
   then Raise (bulk_limit_error r)
   else
     let '(objs, has_more) :=
       if negb (is_bulk view_method) && paginate r then
         let has_more := limit <? Z.of_nat (length objs) in
         (if has_more then removelast objs else objs, Some has_more)
       else (objs, None) in
     Ok (objs, has_more, count),
   st).

End WithExternal.

(** *** get_requested_fields *)

Fixpoint remove_each (not_fields : list string) (requested : list string)
  : result (list string) :=
  match not_fields with
  | [] => Ok requested
  | f :: not_fields' =>
      requested ← list_remove f requested;
      remove_each not_fields' requested
  end.

(** [fields_kw] is the [fields] keyword argument and [params] the [params]
    keyword argument; [None] stands for an argument that is absent (or,
    for [params], passed as [None]). *)
Definition get_requested_fields (r : Resource)
    (fields_kw : option (list string)) (params : option (dict string))
  : result (list string) :=
  let '(fields, all_fields_set) :=
    match fields_kw with
    | Some fields => (fields, to_set fields)
    | None => (get_fields r, set_union (get_fields r) (get_optional_fields r))
    end in
  let only_fields :=
    match params with
    | Some p =>
        match p, dict_get p "_fields" with
        | _ :: _, Some v => Some (to_set (split "," v))
        | _, _ => None
        end
    | None => None
    end in
  let requested_fields :=
    match only_fields with
    | None => fields
    | Some only_fields =>
        if list_mem "_all" only_fields then all_fields_set
        else
          filter (fun actual_field => list_mem actual_field all_fields_set = true)
                 (reverse_rename r <$> only_fields)
    end in
  match params with
  | None => Raise TypeError
  | Some p =>
      match dict_get p "_not_fields" with
      | Some v => remove_each (split "," v) requested_fields
      | None => Ok requested_fields
      end
  end.

(** *** Sub-resource delegation *)

(** [obj.__class__] *)
Definition class_of (obj : pyval) : string :=
  match obj with
  | VNone => "NoneType"
  | VBool _ => "bool"
  | VInt _ => "int"
  | VStr _ => "str"
  | VList _ => "list"
  | VDict _ => "dict"
  | VObjectId _ => "ObjectId"
  | VDBRef _ _ => "DBRef"
  | VRef _ _ => "PyMongoReference"
  | VCallable _ => "function"
  | VDoc cls _ _ _ => cls
  end.

Section WithExternal.
Context `{External}.

(** [_subresource]: the resource to delegate to, if any.  The
    [[]]-lookup of the default child raises [KeyError].  The sub-resource
    is a new instance of its class, [s_class(view_method=...)]: its
    [__init__] runs, and raises [AssertionError] when the rename map of
    the class sends two fields to one name (a resource class always has
    its [document] here, so that the look-up of the document fields in
    [__init__] finds them). *)
Definition _subresource (r : Resource) (obj : pyval) : result (option Resource) :=
  s_class ←
    (match dict_get (child_document_resources r) (class_of obj),
           default_child_resource_document r with
     | Some s, _ => Ok (Some s)
     | None, Some d =>
         if str_truthy d then
           match dict_get (child_document_resources r) d with
           | Some s => Ok (Some s)
           | None => Raise (KeyError d)
           end
         else Ok None
     | None, None => Ok None
     end);
  match s_class with
  | Some s_name =>
      let s := resource_class s_name in
      if str_eqb (name s) (name r) then Ok None
      else if init_assertion s then Ok (Some s)
      else Raise AssertionError
  | None => Ok None
  end.

(** [serialize] and [update_object] both start with
    [subresource = self._subresource(obj)] and, when there is one, return
    what the same method of the sub-resource returns.  [handler fuel r obj]
    is the resource at the end of that chain of delegations, when at most
    [fuel] nested delegations are needed; the delegation after these is
    the [RecursionError] of the interpreter. *)
Fixpoint handler (fuel : nat) (r : Resource) (obj : pyval) : result Resource :=
  s ← _subresource r obj;
  match s with
  | None => Ok r
  | Some s' =>
      match fuel with
      | O => Raise RecursionError
      | S fuel' => handler fuel' s' obj
      end
  end.

End WithExternal.

Section WithExternal.
Context `{External}.

(** *** Projection: get_field_value and serialize *)

(** What [get_field_value] may hold in [field_instance]: a declared field
    descriptor, or any other Python object (a class attribute of the
    document, or, from [serialize_list_field], the list element itself). *)
Inductive fobj :=
| FField (f : finst)
| FValue (v : pyval).

Definition fobj_truthy (fi : fobj) : bool :=
  match fi with
  | FField _ => true
  | FValue v => truthy v
  end.

(** [getattr(v, name)]; [None] is an [AttributeError]. *)
Definition py_getattr (v : pyval) (name : string) : option pyval :=
  match v with
  | VDoc _ attrs _ _ => dict_get attrs name
  | VDBRef coll id =>
      if str_eqb name "id" then Some id
      else if str_eqb name "collection" then Some (VStr coll)
      else None
  | VRef _ pk => if str_eqb name "pk" then Some pk else None
  | _ => None
  end.

(** Iterating a value with [for]. *)
Definition py_iter (v : pyval) : result (list pyval) :=
  match v with
  | VList l => Ok l
  | VDict d => Ok (VStr <$> d.*1)
  | VStr s => Ok ((fun c => VStr (String c EmptyString)) <$> String.list_ascii_of_string s)
  | _ => Raise TypeError
  end.

Fixpoint mapM {A B} (f : A → result B) (l : list A) : result (list B) :=
  match l with
  | [] => Ok []
  | x :: l' => y ← f x; ys ← mapM f l'; Ok (y :: ys)
  end.

(** [DocumentProxy] is [None] unless the mongoengine fork is installed, so
    the first test of the source never fires. *)
Definition serialize_document_field (field_name : string) (field_value : pyval)
  : result pyval :=
  match field_value with
  | VDBRef _ _ => Ok field_value
  | VRef coll pk =>
      match coll with
      | Some c => if str_truthy c then Ok (VDBRef c pk) else Ok pk
      | None => Ok pk
      end
  | _ => if truthy field_value then to_dbref field_value else Ok field_value
  end.

Definition serialize_callable_field (obj field_instance : pyval)
    (field_name : string) (field_value : pyval) : result pyval :=
  match field_value with
  | VList _ => Ok field_value
  | _ =>
      if isbound field_instance then py_call field_instance []
      else if isbound field_value then py_call field_value []
      else py_call field_instance [obj]
  end.

(** [serialize_field_value] when the field instance is a Python object
    that is not a field descriptor. *)
Definition serialize_by_value (obj : pyval) (field_name : string)
    (field_instance field_value : pyval) : result pyval :=
  match field_instance with
  | VRef _ _ => serialize_document_field field_name field_value
  | VCallable _ => serialize_callable_field obj field_instance field_name field_value
  | _ => Ok field_value
  end.

(** [get_field_value(val, field_name, val)], the call that
    [serialize_list_field] makes for each element.  A falsy element is no
    field instance: the descriptor is looked up by name, and the value is
    then read off the element itself. *)
Definition list_element_value (field_name : string) (val : pyval) : result pyval :=
  if truthy val then serialize_by_value val field_name val val
  else
    match val with
    | VDict _ => Raise (KeyError field_name)
    | _ =>
        match py_getattr val field_name with
        | Some _ => Ok val
        | None => Raise UnknownFieldError
        end
    end.

Definition serialize_list_field (field_name : string) (field_value : pyval)
  : result pyval :=
  l ← py_iter field_value;
  ret ← mapM (list_element_value field_name) l;
  Ok (VList ret).

(** [serialize_field_value] for a declared field descriptor.  In the map
    case the source calls [get_field_value(elem, field_name,
    field_instance=field_instance.field)], which takes [elem] as the field
    value and dispatches on the element descriptor. *)
Fixpoint serialize_declared (field_name : string) (f : finst)
    (obj field_value : pyval) : result pyval :=
  match f with
  | FReference | FGenericReference =>
      serialize_document_field field_name field_value
  | FList => serialize_list_field field_name field_value
  | FDict (Some elem_field) =>
      match field_value with
      | VDict d =>
          d' ← mapM (fun kv : string * pyval =>
                       v ← serialize_declared field_name elem_field kv.2 kv.2;
                       Ok (kv.1, v)) d;
          Ok (VDict d')
      | _ => Raise AttributeError
      end
  | FDict None => Ok field_value
  | FScalar => Ok field_value
  end.

Definition serialize_field_value (obj : pyval) (field_name : string)
    (field_instance : fobj) (field_value : pyval) : result pyval :=
  match field_instance with
  | FField f => serialize_declared field_name f obj field_value
  | FValue v => serialize_by_value obj field_name v field_value
  end.

(** [field_instance or fields.get(field_name) or getattr(document, field_name, None)] *)
Definition resolve_field_instance (r : Resource) (field_name : string)
    (field_instance : option fobj) : fobj :=
  match field_instance with
  | Some fi =>
      if fobj_truthy fi then fi
      else
        match dict_get (doc_fields (document r)) field_name with
        | Some f => FField f
        | None => FValue (default VNone (dict_get (doc_attrs (document r)) field_name))
        end
  | None =>
      match dict_get (doc_fields (document r)) field_name with
      | Some f => FField f
      | None => FValue (default VNone (dict_get (doc_attrs (document r)) field_name))
      end
  end.

Definition get_field_value (r : Resource) (obj : pyval) (field_name : string)
    (field_instance : option fobj) : result pyval :=
  let has_field_instance :=
    match field_instance with Some fi => fobj_truthy fi | None => false end in
  let field_instance := resolve_field_instance r field_name field_instance in
  if has_field_instance
  then serialize_field_value obj field_name field_instance obj
  else
    match obj with
    | VDict d =>
        match dict_get d field_name with
        | Some v => Ok v
        | None => Raise (KeyError field_name)
        end
    | _ =>
        match py_getattr obj field_name with
        | Some field_value =>
            serialize_field_value obj field_name field_instance field_value
        | None => Raise UnknownFieldError
        end
    end.

Definition value_for_field (r : Resource) (obj : pyval) (field : string)
  : result pyval :=
  Raise UnknownFieldError.

(** The loop of [serialize] over the requested fields, filling [data]. *)
Fixpoint serialize_loop (r : Resource) (obj : pyval)
    (requested_fields : list string) (data : dict pyval) : result (dict pyval) :=
  match requested_fields with
  | [] => Ok data
  | field :: rest =>
      let renamed_field := rename r field in
      if list_mem field (callables r) then
        value ← call_attr (name r) field obj;
        serialize_loop r obj rest (dict_set data renamed_field value)
      else
        match get_field_value r obj field None with
        | Ok value => serialize_loop r obj rest (dict_set data renamed_field value)
        | Raise UnknownFieldError =>
            match value_for_field r obj field with
            | Ok value => serialize_loop r obj rest (dict_set data renamed_field value)
            | Raise UnknownFieldError => serialize_loop r obj rest data
            | Raise e => Raise e
            end
        | Raise e => Raise e
        end
  end.

(** [serialize] on the resource that keeps the object for itself. *)
Definition serialize_here (r : Resource) (obj : pyval)
    (fields_kw : option (list string)) (params : option (dict string))
  : result (dict pyval) :=
  requested_fields ← get_requested_fields r fields_kw params;
  serialize_loop r obj requested_fields [].

Definition serialize (r : Resource) (obj : pyval)
    (fields_kw : option (list string)) (params : option (dict string))
  : result (dict pyval) :=
  if negb (truthy obj) then Ok []
  else
    r' ← handler recursion_limit r obj;
    serialize_here r' obj fields_kw params.

(** *** Mutation: get_object_dict and update_object *)

(** The per-request state of a resource instance that the mutation
    methods read: [self.data] and [self.raw_data]. *)
Record request_state := mkState {
  data : option (dict pyval);
  raw_data : dict pyval
}.

Definition data_truthy (d : option (dict pyval)) : bool :=
  match d with Some d => dict_truthy d | None => false end.

Definition get_object_dict (r : Resource) (s : request_state)
    (data_arg : option (dict pyval)) (update : bool) : result (dict pyval) :=
  let data := if data_truthy (data s) then data s else data_arg in
  let filter_fields := to_set (doc_fields (document r)).*1 in
  let filter_fields :=
    if update then
      filter (fun f => list_mem f (to_set (reverse_rename r <$> (raw_data s).*1)) = true)
             filter_fields
    else filter_fields in
  match data with
  | Some d => Ok (filter (fun fv : string * pyval => list_mem fv.1 filter_fields = true) d)
  | None => Raise AttributeError
  end.







End WithExternal.

End Resources.

(** ** A concrete environment

    Executable stand-ins for the standard library and the store, used to
    run the embedding on concrete requests. *)

Module Concrete.
Import Operators Resources.

#[export] Instance finst_eq_dec : EqDecision finst.
Proof.
  unfold EqDecision, Decision. fix go 1. intros a b.
  destruct a as [| | |ea|], b as [| | |eb|];
    try (left; reflexivity); try (right; discriminate).
  destruct ea as [fa|], eb as [fb|];
    try (left; reflexivity); try (right; discriminate).
  destruct (go fa fb) as [Heq|Hne].
  - left. by rewrite Heq.
  - right. intros Heq. apply Hne. by injection Heq.
Defined.

Fixpoint pyval_eqb (a b : pyval) {struct a} : bool :=
  let fix list_eqb (l1 l2 : list pyval) : bool :=
    match l1, l2 with
    | [], [] => true
    | x :: l1', y :: l2' => pyval_eqb x y && list_eqb l1' l2'
    | _, _ => false
    end in
  let fix dict_eqb (d1 d2 : list (string * pyval)) : bool :=
    match d1, d2 with
    | [], [] => true
    | (k1, x) :: d1', (k2, y) :: d2' =>
        str_eqb k1 k2 && pyval_eqb x y && dict_eqb d1' d2'
    | _, _ => false
    end in
  match a, b with
  | VNone, VNone => true
  | VBool x, VBool y => bool_decide (x = y)
  | VInt x, VInt y => x =? y
  | VStr x, VStr y => str_eqb x y
  | VList x, VList y => list_eqb x y
  | VDict x, VDict y => dict_eqb x y
  | VObjectId x, VObjectId y => str_eqb x y
  | VDBRef c1 i1, VDBRef c2 i2 => str_eqb c1 c2 && pyval_eqb i1 i2
  | VRef c1 p1, VRef c2 p2 => bool_decide (c1 = c2) && pyval_eqb p1 p2
  | VCallable x, VCallable y => str_eqb x y
  | VDoc c1 a1 d1 f1, VDoc c2 a2 d2 f2 =>
      str_eqb c1 c2 && dict_eqb a1 a2
      && match d1, d2 with
         | Some x, Some y => dict_eqb x y
         | None, None => true
         | _, _ => false
         end
      && bool_decide (f1 = f2)
  | _, _ => false
  end.

(** *** The path component of a parsed URL *)

(** [(s[:i], s[i:])] for the first position [i] whose character satisfies
    [p], and [(s, "")] when there is none. *)
Fixpoint break_at (p : ascii → bool) (s : string) : string * string :=
  match s with
  | EmptyString => (EmptyString, EmptyString)
  | String c s' =>
      if p c then (EmptyString, s)
      else let '(a, b) := break_at p s' in (String c a, b)
  end.

Definition is_char (c : ascii) : ascii → bool := fun a => bool_decide (a = c).

Definition forall_chars (p : ascii → bool) (s : string) : bool :=
  forallb p (String.list_ascii_of_string s).

Definition is_alpha (c : ascii) : bool :=
  let n := nat_of_ascii c in
  ((65 <=? n) && (n <=? 90) || (97 <=? n) && (n <=? 122))%nat.

Definition is_digit (c : ascii) : bool :=
  let n := nat_of_ascii c in ((48 <=? n) && (n <=? 57))%nat.

Definition is_scheme_char (c : ascii) : bool :=
  is_alpha c || is_digit c || contains_char c "+-.".

Definition lower (c : ascii) : ascii :=
  let n := nat_of_ascii c in
  if ((65 <=? n) && (n <=? 90))%nat then ascii_of_nat (n + 32) else c.

Definition lower_string (s : string) : string :=
  String.string_of_list_ascii (lower <$> String.list_ascii_of_string s).

Definition uses_params : list string :=
  [""; "ftp"; "hdl"; "prospero"; "http"; "imap"; "https"; "shttp"; "rtsp";
   "rtspu"; "sip"; "sips"; "mms"; "sftp"; "tel"].

Definition tail (s : string) : string :=
  match s with EmptyString => EmptyString | String _ s' => s' end.

(** The part of [s] after its last [/], and what precedes it (with the
    slash). *)
Fixpoint split_last_slash (s : string) : string * string :=
  match s with
  | EmptyString => (EmptyString, EmptyString)
  | String c s' =>
      let '(dir, file) := split_last_slash s' in
      if contains_char "/"%char s then (String c dir, file)
      else (EmptyString, s)
  end.

(** [urlparse(value).path] after CPython's [urllib.parse]: an optional
    scheme, a network location after [//] (with the check that raises
    "Invalid IPv6 URL"), then the path up to a fragment, a query, or the
    parameters of the last path segment. *)
Definition urlparse_path (url : string) : result string :=
  let '(pre, rest) := break_at (is_char ":"%char) url in
  let '(scheme, url) :=
    match pre, rest with
    | String c _, String _ rest' =>
        if is_alpha c && forall_chars is_scheme_char pre
        then (lower_string pre, rest')
        else (EmptyString, url)
    | _, _ => (EmptyString, url)
    end in
  '(netloc, url) ←
    (if String.prefix "//" url then
       let '(netloc, url) := break_at (fun c => contains_char c "/?#") (tail (tail url)) in
       if contains_char "["%char netloc && negb (contains_char "]"%char netloc)
          || contains_char "]"%char netloc && negb (contains_char "["%char netloc)
       then Raise ValueError
       else Ok (netloc, url)
     else Ok (EmptyString, url));
  let url := (break_at (is_char "#"%char) url).1 in
  let url := (break_at (is_char "?"%char) url).1 in
  if list_mem scheme uses_params && contains_char ";"%char url then
    let '(dir, file) := split_last_slash url in
    Ok (dir +:+ (break_at (is_char ";"%char) file).1)
  else Ok url.

(** *** Integers from strings *)

Definition is_space (c : ascii) : bool :=
  let n := nat_of_ascii c in ((9 <=? n) && (n <=? 13) || (n =? 32))%nat.

Fixpoint lstrip_space (s : string) : string :=
  match s with
  | String c s' => if is_space c then lstrip_space s' else s
  | EmptyString => EmptyString
  end.

Definition strip_space (s : string) : string :=
  let r := String.string_of_list_ascii
             (rev (String.list_ascii_of_string (lstrip_space s))) in
  String.string_of_list_ascii
    (rev (String.list_ascii_of_string (lstrip_space r))).

(** Decimal digits, with single underscores allowed between digits;
    [digit_before] tells whether the previous character was a digit. *)
Fixpoint digits (s : string) (digit_before : bool) (acc : Z) : option Z :=
  match s with
  | EmptyString => if digit_before then Some acc else None
  | String c s' =>
      if is_digit c then digits s' true (10 * acc + Z.of_nat (nat_of_ascii c - 48))
      else if is_char "_"%char c && digit_before then digits s' false acc
      else None
  end.

(** [int(s)] on a string: surrounding whitespace, an optional sign, and
    ASCII decimal digits. *)
Definition py_int (s : string) : option Z :=
  match strip_space s with
  | String "-" s' => Z.opp <$> digits s' false 0
  | String "+" s' => digits s' false 0
  | s' => digits s' false 0
  end.

(** *** A small document store *)

(** A fragment [{field: value}] selects the documents whose field equals
    the value; [{'$and': [...]}] selects the documents all fragments
    select; the empty filter selects every document. *)
Definition fragment_matches (frag : pyval) (doc : pyval) : bool :=
  match frag with
  | VDict [(field, value)] =>
      match doc with
      | VDict d => match dict_get d field with
                   | Some v => pyval_eqb v value
                   | None => false
                   end
      | VDoc _ attrs _ _ => match dict_get attrs field with
                            | Some v => pyval_eqb v value
                            | None => false
                            end
      | _ => false
      end
  | _ => false
  end.

Definition doc_matches (flt : pyval) (doc : pyval) : bool :=
  match flt with
  | VDict [] => true
  | VDict [("$and", VList frags)] => forallb (fun f => fragment_matches f doc) frags
  | _ => fragment_matches flt doc
  end.

(** Sorting on the first ordering field, ascending, by insertion. *)
Definition sort_key (field : string) (doc : pyval) : string :=
  match doc with
  | VDict d => match dict_get d field with Some (VStr s) => s | _ => "" end
  | VDoc _ attrs _ _ => match dict_get attrs field with Some (VStr s) => s | _ => "" end
  | _ => ""
  end.

Fixpoint insert_sorted (field : string) (x : pyval) (l : list pyval) : list pyval :=
  match l with
  | [] => [x]
  | y :: l' =>
      if String.leb (sort_key field x) (sort_key field y) then x :: l
      else y :: insert_sorted field x l'
  end.

Definition sort_docs (order : list string) (l : list pyval) : list pyval :=
  match order with
  | [] => l
  | field :: _ => foldr (insert_sorted field) [] l
  end.

(** [to_dbref] of a document: its class name stands for the collection. *)
Definition to_dbref (v : pyval) : result pyval :=
  match v with
  | VDoc cls attrs _ _ =>
      match dict_get attrs "id" with
      | Some id => Ok (VDBRef cls id)
      | None => Raise AttributeError
      end
  | _ => Raise AttributeError
  end.

(** The resource of [example/app.py]. *)
Definition User : document_class :=
  mkDocument "User"
    [("nick", FScalar); ("firstname", FScalar); ("lastname", FScalar);
     ("birthday", FScalar); ("listfield", FList); ("password", FScalar)]
    [].

Definition UserResource : Resource := {|
  name := "UserResource";
  document := User;
  fields := None;
  rename_fields := [];
  allowed_ordering := ["firstname"];
  paginate := true;
  default_limit := 100;
  max_limit := 100;
  bulk_update_limit := 1000;
  child_document_resources := [];
  default_child_resource_document := None;
  uri_prefix := None;
  filters := [("firstname", [of_class Exact; of_class Ne]);
              ("lastname", [of_class Exact; of_class Ne]);
              ("nick", [of_class Exact; of_class Ne])];
  callables := []
|}.

(** The same resource, identified by URI references. *)
Definition UriResource : Resource := {|
  name := "UriResource";
  document := User;
  fields := None;
  rename_fields := [];
  allowed_ordering := ["firstname"];
  paginate := true;
  default_limit := 100;
  max_limit := 100;
  bulk_update_limit := 1000;
  child_document_resources := [];
  default_child_resource_document := None;
  uri_prefix := Some "/user/";
  filters := filters UserResource;
  callables := []
|}.

(** A resource without pagination whose [max_limit] is 2, and a resource
    that allows bulk updates of fewer than 3 objects. *)
Definition UnpaginatedResource : Resource := {|
  name := "UnpaginatedResource";
  document := User;
  fields := None;
  rename_fields := [];
  allowed_ordering := ["firstname"];
  paginate := false;
  default_limit := 100;
  max_limit := 2;
  bulk_update_limit := 1000;
  child_document_resources := [];
  default_child_resource_document := None;
  uri_prefix := None;
  filters := filters UserResource;
  callables := []
|}.

Definition BulkResource : Resource := {|
  name := "BulkResource";
  document := User;
  fields := None;
  rename_fields := [];
  allowed_ordering := ["firstname"];
  paginate := true;
  default_limit := 100;
  max_limit := 100;
  bulk_update_limit := 3;
  child_document_resources := [];
  default_child_resource_document := None;
  uri_prefix := None;
  filters := filters UserResource;
  callables := []
|}.

(** A resource that publishes [firstname] as [first] and allows ordering
    by it, alone or after [lastname]. *)
Definition RenamedResource : Resource := {|
  name := "RenamedResource";
  document := User;
  fields := None;
  rename_fields := [("firstname", "first")];
  allowed_ordering := ["first"; "lastname,first"];
  paginate := true;
  default_limit := 100;
  max_limit := 100;
  bulk_update_limit := 1000;
  child_document_resources := [];
  default_child_resource_document := None;
  uri_prefix := None;
  filters := filters UserResource;
  callables := []
|}.

Definition user (nick : string) : pyval :=
  VDoc "User" [("nick", VStr nick); ("firstname", VStr "Bob")] None [].

(** A store of five users. *)
Definition five_users : store := user <$> ["a"; "b"; "c"; "d"; "e"].

(** A user as the store may hand it out when the cursor yields raw
    documents: a [dict] without the field [firstname]. *)
Definition raw_user : pyval := VDict [("nick", VStr "bob")].

(** A resource whose list of ordering fields has two fields. *)
Definition OrderedResource : Resource := {|
  name := "OrderedResource";
  document := User;
  fields := None;
  rename_fields := [];
  allowed_ordering := ["firstname"; "lastname"];
  paginate := true;
  default_limit := 100;
  max_limit := 100;
  bulk_update_limit := 1000;
  child_document_resources := [];
  default_child_resource_document := None;
  uri_prefix := None;
  filters := filters UserResource;
  callables := []
|}.

(** Posts, with a reference to their author. *)
Definition Post : document_class :=
  mkDocument "Post" [("title", FScalar); ("author", FReference)] [].

Definition PostResource : Resource := {|
  name := "PostResource";
  document := Post;
  fields := None;
  rename_fields := [];
  allowed_ordering := [];
  paginate := true;
  default_limit := 100;
  max_limit := 100;
  bulk_update_limit := 1000;
  child_document_resources := [];
  default_child_resource_document := None;
  uri_prefix := None;
  filters := [];
  callables := []
|}.


(** Two resources that delegate users to each other; a resource that
    delegates users to [UserResource]; and one that delegates them to a
    resource whose rename map sends two fields to one name. *)
Definition PingResource : Resource := {|
  name := "PingResource";
  document := User;
  fields := None;
  rename_fields := [];
  allowed_ordering := [];
  paginate := true;
  default_limit := 100;
  max_limit := 100;
  bulk_update_limit := 1000;
  child_document_resources := [("User", "PongResource")];
  default_child_resource_document := None;
  uri_prefix := None;
  filters := [];
  callables := []
|}.

Definition PongResource : Resource := {|
  name := "PongResource";
  document := User;
  fields := None;
  rename_fields := [];
  allowed_ordering := [];
  paginate := true;
  default_limit := 100;
  max_limit := 100;
  bulk_update_limit := 1000;
  child_document_resources := [("User", "PingResource")];
  default_child_resource_document := None;
  uri_prefix := None;
  filters := [];
  callables := []
|}.

Definition PersonResource : Resource := {|
  name := "PersonResource";
  document := User;
  fields := None;
  rename_fields := [];
  allowed_ordering := [];
  paginate := true;
  default_limit := 100;
  max_limit := 100;
  bulk_update_limit := 1000;
  child_document_resources := [("User", "UserResource")];
  default_child_resource_document := None;
  uri_prefix := None;
  filters := [];
  callables := []
|}.

Definition ClashResource : Resource := {|
  name := "ClashResource";
  document := User;
  fields := None;
  rename_fields := [("nick", "x"); ("firstname", "x")];
  allowed_ordering := [];
  paginate := true;
  default_limit := 100;
  max_limit := 100;
  bulk_update_limit := 1000;
  child_document_resources := [];
  default_child_resource_document := None;
  uri_prefix := None;
  filters := [];
  callables := []
|}.

Definition ParentResource : Resource := {|
  name := "ParentResource";
  document := User;
  fields := None;
  rename_fields := [];
  allowed_ordering := [];
  paginate := true;
  default_limit := 100;
  max_limit := 100;
  bulk_update_limit := 1000;
  child_document_resources := [("User", "ClashResource")];
  default_child_resource_document := None;
  uri_prefix := None;
  filters := [];
  callables := []
|}.

(** The resource classes of the program, by name. *)
Definition resource_classes : dict Resource :=
  (fun r => (name r, r))
    <$> [UserResource; UriResource; UnpaginatedResource; BulkResource;
         RenamedResource; OrderedResource; PostResource; PingResource;
         PongResource; PersonResource; ClashResource; ParentResource].

Definition resource_class (n : string) : Resource :=
  default UserResource (dict_get resource_classes n).

#[export] Instance concrete : External := {|
  Resources.urlparse_path := urlparse_path;
  Resources.py_int := py_int;
  Resources.doc_matches := doc_matches;
  Resources.sort_docs := sort_docs;
  Resources.equal := pyval_eqb;
  Resources.py_eq := pyval_eqb;
  Resources.isbound := fun _ => false;
  Resources.py_call := fun f _ => Ok f;
  Resources.call_attr := fun _ field _ => Ok (VStr field);
  Resources.to_dbref := to_dbref;
  Resources.commit_reload := fun obj => Ok obj;
  Resources.resource_class := resource_class;
  Resources.recursion_limit := 1000
|}.

End Concrete.

(** ** resources.py: URIs and the rename pass of validate_request *)

Module Lifecycle.
Import Operators Resources.

(** [Resource.uri] *)
Definition uri (r : Resource) (path : string) : result string :=
  match uri_prefix r with
  | Some prefix => if str_truthy prefix then Ok (prefix +:+ path) else Raise ValueError
  | None => Raise ValueError
  end.

(** [del d[k]] *)
Fixpoint dict_del {V} (d : dict V) (k : string) : result (dict V) :=
  match d with
  | [] => Raise (KeyError k)
  | (k', v) :: d' =>
      if str_eqb k k' then Ok d'
      else d'' ← dict_del d' k; Ok ((k', v) :: d'')
  end.

Fixpoint del_each {V} (keys : list string) (d : dict V) : result (dict V) :=
  match keys with
  | [] => Ok d
  | k :: keys' => d ← dict_del d k; del_each keys' d
  end.

(** The first loop of the rename pass of [validate_request]: the public
    names found in the data, and the values to store under the underlying
    names. *)
Definition fields_to_delete (r : Resource) (data : dict pyval) : list string :=
  omap (fun kv : string * string => _ ← dict_get data kv.2; Some kv.2)
       (get_rename_fields r).

Definition fields_to_update (r : Resource) (data : dict pyval) : dict pyval :=
  foldl (fun d kx => dict_set d kx.1 kx.2) []
        (omap (fun kv : string * string => x ← dict_get data kv.2; Some (kv.1, x))
              (get_rename_fields r)).

(** The rename pass of [validate_request] on a copy of the raw data: collect,
    delete the public names, then write the underlying names. *)
Definition rename_data (r : Resource) (raw_data : dict pyval) : result (dict pyval) :=
  let data := raw_data in
  data' ← del_each (fields_to_delete r data) data;
  Ok (foldl (fun d kx => dict_set d kx.1 kx.2) data' (fields_to_update r data)).



End Lifecycle.

(** ** Further concrete data *)

Module Examples.
Import Operators Resources Concrete.

(** A resource whose renames chain: the field [a] is published as [b],
    and the field [b] as [c]. *)
Definition ChainResource : Resource := {|
  name := "ChainResource";
  document := mkDocument "Chain" [("a", FScalar); ("b", FScalar)] [];
  fields := None;
  rename_fields := [("a", "b"); ("b", "c")];
  allowed_ordering := [];
  paginate := true;
  default_limit := 100;
  max_limit := 100;
  bulk_update_limit := 1000;
  child_document_resources := [];
  default_child_resource_document := None;
  uri_prefix := None;
  filters := [];
  callables := []
|}.


End Examples.

(** * Properties *)

Module Properties.
Import Operators Resources.

(** ** Notions used in the statements *)

Section Notions.
Context `{External}.

(** The three ways in which the loop of [apply_filters] leaves a parameter
    out, stated on the key. *)

(** No prefix of the key's parts is a declared field. *)
Definition no_declared_field (r : Resource) (key : string) : Prop :=
  let parts := split "__" key in
  ∀ i : nat, (1 ≤ i ≤ S (length parts))%nat →
    get_filters r !! join "__" (take i parts) = None.

(** The greedy match ends on [field] with the operators [allowed] and the
    parts [rest] left over. *)
Definition resolves_to (r : Resource) (key field : string)
    (allowed : gmap string operator) (rest : list string) : Prop :=
  let parts := split "__" key in
  find_field (get_filters r) parts (length parts) = (field, Some allowed, rest).

(** The suffix read off the key (its last remaining part when that names
    an operator of the field, the empty suffix of [exact] otherwise) has no
    operator registered for the field. *)
Definition no_registered_operator (r : Resource) (key : string) : Prop :=
  ∃ field allowed rest, resolves_to r key field allowed rest
    ∧ allowed !! (split_suffix allowed rest).1.1 = None.

(** The key asks for the negation of an operator that does not allow it. *)
Definition negation_not_allowed (r : Resource) (key : string) : Prop :=
  ∃ field allowed rest o, resolves_to r key field allowed rest
    ∧ (split_suffix allowed rest).1.2 = true
    ∧ allowed !! (split_suffix allowed rest).1.1 = Some o
    ∧ allow_negation o = false.

Definition omitted (r : Resource) (key : string) : Prop :=
  no_declared_field r key ∨ no_registered_operator r key ∨ negation_not_allowed r key.

(** The raw value passes the normalisation at the head of the loop body:
    the resource has no URI prefix, or the value parses as a URL. *)
Definition normalizes (r : Resource) (value : string) : Prop :=
  uri_prefix r = None ∨ is_ok (urlparse_path value) = true.

(** The documents of the store that the filter selects, in the order in
    which a cursor with the ordering of the request yields them. *)
Definition matching_rows (r : Resource) (params : dict string)
    (flt : pyval) (st : store) : list pyval :=
  let rows := filter (fun d => doc_matches flt d = true) st in
  match apply_ordering r params with
  | Some order => sort_docs order rows
  | None => rows
  end.


(** The notions of the claim about updates, written from its words. *)







End Notions.

(** ** Python prelude *)

Lemma str_eqb_eq (a b : string) : str_eqb a b = true ↔ a = b.
Proof. unfold str_eqb. apply bool_decide_eq_true. Qed.

Lemma str_eqb_refl (a : string) : str_eqb a a = true.
Proof. by apply str_eqb_eq. Qed.

Lemma str_eqb_ne (a b : string) : a ≠ b → str_eqb a b = false.
Proof. unfold str_eqb. apply bool_decide_eq_false_2. Qed.

Lemma list_mem_spec (x : string) (l : list string) :
  list_mem x l = true ↔ x ∈ l.
Proof.
  unfold list_mem. induction l as [|y l IH]; simpl.
  - split; [done | by intros ?%elem_of_nil].
  - rewrite elem_of_cons, orb_true_iff, str_eqb_eq, IH. done.
Qed.

Lemma list_mem_false (x : string) (l : list string) :
  list_mem x l = false ↔ x ∉ l.
Proof.
  rewrite <- list_mem_spec. by destruct (list_mem x l).
Qed.

Lemma dict_get_set_eq {V} (d : dict V) (k : string) (v : V) :
  dict_get (dict_set d k v) k = Some v.
Proof.
  induction d as [|[k' v'] d IH]; simpl.
  - by rewrite str_eqb_refl.
  - destruct (str_eqb k k') eqn:E; simpl; [by rewrite str_eqb_refl | by rewrite E].
Qed.

Lemma dict_get_set_ne {V} (d : dict V) (k k' : string) (v : V) :
  k ≠ k' → dict_get (dict_set d k v) k' = dict_get d k'.
Proof.
  intros Hne. induction d as [|[k0 v0] d IH]; simpl.
  - by rewrite str_eqb_ne.
  - destruct (str_eqb k k0) eqn:E; simpl.
    + apply str_eqb_eq in E as <-. by rewrite !str_eqb_ne.
    + by rewrite IH.
Qed.

Lemma dict_get_fmap {A B} (f : A → B) (d : dict A) (k : string) :
  dict_get ((fun kv : string * A => (kv.1, f kv.2)) <$> d) k = f <$> dict_get d k.
Proof.
  induction d as [|[k' v] d IH]; simpl; [done|].
  by destruct (str_eqb k k').
Qed.

Lemma split_go_nonempty (sep s : string) (skip : nat) (cur : list ascii) :
  split_go sep s skip cur ≠ [].
Proof.
  revert skip cur. induction s as [|c s IH]; intros skip cur; [done|].
  cbn [split_go]. destruct skip; [|apply IH].
  destruct (String.prefix sep (String c s)); [done | apply IH].
Qed.

Lemma split_nonempty (sep s : string) : split sep s ≠ [].
Proof. apply split_go_nonempty. Qed.

(** ** Sub-resource delegation *)

Section WithExternal.
Context `{External}.

(** [handler] follows [_subresource] until a resource keeps the object,
    or until the depth that is left is used up. *)
Lemma handler_unfold (fuel : nat) (r : Resource) (obj : pyval) :
  handler fuel r obj =
  s ← _subresource r obj;
  match s with
  | None => Ok r
  | Some s' =>
      match fuel with
      | O => Raise RecursionError
      | S fuel' => handler fuel' s' obj
      end
  end.
Proof. by destruct fuel. Qed.

Lemma handler_self (fuel : nat) (r : Resource) (obj : pyval) :
  _subresource r obj = Ok None → handler fuel r obj = Ok r.
Proof. intros Hs. by rewrite handler_unfold, Hs. Qed.

End WithExternal.

(** ** Operators *)

(** What [In.prepare_queryset_kwargs] returns on a string value. *)
Lemma In_apply_shape (o : operator) (field s : string) (negate : bool) :
  cls o = In →
  Operators.apply o field (Some s) negate =
  if contains_char ","%char s
  then Ok (VDict [(field, VDict [(if negate then "nin" else "in",
                                  VList (VStr <$> split "," s))])])
  else Ok (VDict [(field, VDict [(if negate then "ne" else "", VStr s)])]).
Proof.
  intros Hc. unfold Operators.apply, prepare_queryset_kwargs. rewrite Hc.
  by destruct (contains_char _ s), negate.
Qed.

(** C3 (code at a failing input): on a comma value [In] builds
    [{field: {'in': [...]}}], which is not the fragment
    [{field: {'$in': [...]}}] that the method of the base class builds for
    the same operator name; on a value without a comma it builds
    [{field: {'': value}}], which is not the equality fragment
    [{field: value}] of [Exact], and which does not select a document
    whose field equals the value. *)
Theorem In_fragment_without_operator_prefix :
  let members := VList [VStr "a"; VStr "b"] in
  Operators.apply (of_class In) "tags" (Some "a,b") false
    = Ok (VDict [("tags", VDict [("in", members)])])
  ∧ VDict [("tags", VDict [("in", members)])]
    ≠ base_prepare_queryset_kwargs (op In) "tags" members false
  ∧ Operators.apply (of_class In) "tags" (Some "a,b") true
    = Ok (VDict [("tags", VDict [("nin", members)])])
  ∧ Operators.apply (of_class In) "tags" (Some "a") false
    = Ok (VDict [("tags", VDict [("", VStr "a")])])
  ∧ Operators.apply (of_class In) "tags" (Some "a") false
    ≠ Operators.apply (of_class Exact) "tags" (Some "a") false
  ∧ Operators.apply (of_class In) "tags" (Some "a") true
    = Ok (VDict [("tags", VDict [("ne", VStr "a")])])
  ∧ Concrete.doc_matches (VDict [("tags", VDict [("", VStr "a")])])
                         (VDict [("tags", VStr "a")]) = false
  ∧ Concrete.doc_matches (VDict [("tags", VStr "a")])
                         (VDict [("tags", VStr "a")]) = true.
Proof. repeat split; try reflexivity; discriminate. Qed.

(** ** Ordering *)

(** What a returned ordering is made of. *)
Lemma apply_ordering_some (r : Resource) (params : dict string)
    (order : list string) :
  apply_ordering r params = Some order →
  ∃ v, dict_get params "_order_by" = Some v ∧ v ∈ allowed_ordering r
       ∧ order = reverse_rename r <$> split "," v ∧ order ≠ [].
Proof.
  unfold apply_ordering. intros Ho.
  destruct (allowed_ordering r) as [|a l] eqn:Ea; [done|].
  destruct (dict_get params "_order_by") as [v|]; [|done].
  destruct (list_mem v (a :: l)) eqn:Em; [|done].
  exists v. apply list_mem_spec in Em. injection Ho as <-.
  repeat split; try done.
  intros Hnil%fmap_nil_inv. by apply split_nonempty in Hnil.
Qed.

Lemma apply_ordering_nonempty (r : Resource) (params : dict string) :
  apply_ordering r params ≠ Some [].
Proof.
  intros Ho. destruct (apply_ordering_some r params [] Ho) as (v & _ & _ & _ & Hne).
  done.
Qed.

(** What the code does: an ordering is returned exactly when [_order_by]
    is present and its value, as sent, is an element of
    [allowed_ordering]; it is then the value split on commas, each piece
    mapped back through the reverse rename map, and it is never empty.
    In every other case the result is [None]: no ordering, and no error. *)
Lemma apply_ordering_allowed (r : Resource) (params : dict string) :
  (∀ order, apply_ordering r params = Some order →
     ∃ v, dict_get params "_order_by" = Some v ∧ v ∈ allowed_ordering r
          ∧ order = reverse_rename r <$> split "," v ∧ order ≠ [])
  ∧ (∀ v, dict_get params "_order_by" = Some v → v ∈ allowed_ordering r →
       apply_ordering r params = Some (reverse_rename r <$> split "," v))
  ∧ (∀ v, dict_get params "_order_by" = Some v → v ∉ allowed_ordering r →
       apply_ordering r params = None)
  ∧ (dict_get params "_order_by" = None → apply_ordering r params = None).
Proof.
  split; [apply apply_ordering_some|].
  unfold apply_ordering. repeat split.
  - intros v -> Hin. destruct (allowed_ordering r) as [|a l] eqn:Ea.
    + by apply elem_of_nil in Hin.
    + apply list_mem_spec in Hin. by rewrite Hin.
  - intros v -> Hnot. destruct (allowed_ordering r) as [|a l] eqn:Ea; [done|].
    apply list_mem_false in Hnot. by rewrite Hnot.
  - intros ->. by destruct (allowed_ordering r).
Qed.

(** Ordering by the published name [first] after [lastname] is allowed on
    [RenamedResource], whose list holds that pair as one entry; ordering
    by [nick] is not allowed on [UserResource]. *)
Lemma apply_ordering_whole_value :
  apply_ordering Concrete.RenamedResource [("_order_by", "lastname,first")]
    = Some ["lastname"; "firstname"]
  ∧ apply_ordering Concrete.UserResource [("_order_by", "nick")] = None.
Proof.
  split.
  - apply (proj1 (proj2 (apply_ordering_allowed Concrete.RenamedResource
                           [("_order_by", "lastname,first")])) "lastname,first").
    + reflexivity.
    + simpl. apply list_elem_of_further, list_elem_of_here.
  - apply (proj1 (proj2 (proj2 (apply_ordering_allowed Concrete.UserResource
                                  [("_order_by", "nick")]))) "nick").
    + reflexivity.
    + simpl. intros Hin. apply list_elem_of_singleton in Hin. discriminate.
Defined.

Section WithExternal.
Context `{External}.

(** ** Field selection *)

(** C10: without a [params] mapping the membership test
    ['_not_fields' in params] raises [TypeError], whatever the resource
    and the [fields] argument; so does [serialize] of a truthy object that
    the resource keeps for itself.  With an empty mapping the default
    field list is returned. *)
Theorem get_requested_fields_requires_params (r : Resource)
    (fields_kw : option (list string)) :
  get_requested_fields r fields_kw None = Raise TypeError
  ∧ (∀ obj, truthy obj = true → _subresource r obj = Ok None →
       serialize r obj fields_kw None = Raise TypeError)
  ∧ get_requested_fields r None (Some []) = Ok (get_fields r).
Proof.
  assert (Hg : get_requested_fields r fields_kw None = Raise TypeError).
  { unfold get_requested_fields. by destruct fields_kw. }
  split; [done|]. split; [|done].
  intros obj Ht Hs. unfold serialize. rewrite Ht. simpl.
  rewrite (handler_self _ _ _ Hs). simpl.
  unfold serialize_here. by rewrite Hg.
Qed.

(** ** Pagination parameters *)

Lemma isint_false (v : string) : py_int v = None → isint (Some v) = false.
Proof. intros Hv. unfold isint. rewrite Hv. by apply bool_decide_eq_false_2, is_Some_None. Qed.

Lemma isint_true (v : string) (z : Z) : py_int v = Some z → isint (Some v) = true.
Proof. intros Hv. unfold isint. rewrite Hv. by apply bool_decide_eq_true_2. Qed.

(** A [_limit] that is not an integer is reported under its name. *)
Lemma limit_must_be_integer (r : Resource) (params : dict string) (v : string) :
  paginate r = true → dict_get params "_limit" = Some v → py_int v = None →
  get_skip_and_limit r params = Raise (not_integer_error "_limit" v).
Proof.
  intros Hp Hl Hv. unfold get_skip_and_limit. rewrite Hp, Hl.
  by rewrite (isint_false _ Hv).
Qed.

(** A [_skip] that is not an integer is reported under its name. *)
Lemma skip_must_be_integer (r : Resource) (params : dict string) (v : string) :
  paginate r = true → isint (dict_get params "_limit") = true →
  dict_get params "_skip" = Some v → py_int v = None →
  get_skip_and_limit r params = Raise (not_integer_error "_skip" v).
Proof.
  intros Hp Hl Hs Hv. unfold get_skip_and_limit. rewrite Hp, Hl, Hs.
  by rewrite (isint_false _ Hv).
Qed.

(** A [_limit] above the maximum is refused, and the message gives the
    maximum. *)
Lemma limit_must_not_exceed_max (r : Resource) (params : dict string)
    (v : string) (z : Z) :
  paginate r = true → dict_get params "_limit" = Some v → v ≠ "" →
  py_int v = Some z → max_limit r < z →
  isint (dict_get params "_skip") = true →
  get_skip_and_limit r params = Raise (max_limit_error (max_limit r)).
Proof.
  intros Hp Hl Hne Hv Hz Hs. unfold get_skip_and_limit, present_and, int.
  rewrite Hp, Hl, Hs, (isint_true _ _ Hv), Hv. simpl.
  destruct v as [|c v]; [done|]. simpl.
  unfold get_max_limit. by rewrite (proj2 (Z.ltb_lt _ _) Hz).
Qed.

(** A negative [_skip] is refused. *)
Lemma skip_must_be_non_negative (r : Resource) (params : dict string)
    (v : string) (z : Z) :
  paginate r = true → isint (dict_get params "_limit") = true →
  present_and params "_limit" (fun l => max_limit r <? l) = Ok false →
  dict_get params "_skip" = Some v → v ≠ "" → py_int v = Some z → z < 0 →
  get_skip_and_limit r params = Raise (negative_skip_error v).
Proof.
  intros Hp Hl Hm Hs Hne Hv Hz. unfold get_skip_and_limit.
  rewrite Hp, Hl, Hs, (isint_true _ _ Hv). simpl.
  unfold get_max_limit. rewrite Hm. simpl.
  unfold present_and, int. rewrite Hs, Hv.
  destruct v as [|c v]; [done|]. simpl.
  by rewrite (proj2 (Z.ltb_lt _ _) Hz).
Qed.

(** ** Filters *)

Lemma normalizes_ok (r : Resource) (value : string) :
  normalizes r value → ∃ v, normalize_value r value = Ok v.
Proof.
  assert (Hfin : ∀ s : string, ∃ v : option string,
            (if str_eqb s "" then Ok None
             else if list_mem s [dq +:+ dq; sq +:+ sq] then Ok (Some "")
                  else Ok (Some s)) = Ok v).
  { intros s. destruct (str_eqb s ""); [by eexists|].
    destruct (list_mem s _); by eexists. }
  unfold normalizes, normalize_value. intros [Hp|Hu].
  - rewrite Hp. simpl. apply Hfin.
  - destruct (uri_prefix r) as [prefix|]; simpl; [|apply Hfin].
    destruct (str_truthy prefix); simpl; [|apply Hfin].
    destruct (urlparse_path value) as [uri|e]; [|done]. simpl. apply Hfin.
Qed.

Lemma find_field_undeclared (flt : gmap string (gmap string operator))
    (parts : list string) (i' : nat) :
  (∀ i : nat, (1 ≤ i ≤ S i')%nat → flt !! join "__" (take i parts) = None) →
  (find_field flt parts i').1.2 = None.
Proof.
  induction i' as [|j IH]; intros Hnone.
  - cbn [find_field]. rewrite (Hnone 1%nat) by lia. done.
  - cbn [find_field]. rewrite (Hnone (S (S j))) by lia. cbn [ops_truthy].
    apply IH. intros i Hi. apply Hnone. lia.
Qed.

(** A parameter of one of the three classes is a [continue] of the loop. *)
Lemma filter_param_omitted (r : Resource) (key value : string) :
  omitted r key → normalizes r value → filter_param r key value = Ok None.
Proof.
  intros Hom [v Hv]%normalizes_ok. unfold filter_param. rewrite Hv. simpl.
  destruct Hom as [Hnf | [Hno | Hneg]].
  - pose proof (find_field_undeclared (get_filters r) (split "__" key)
                  (length (split "__" key)) Hnf) as Hf.
    destruct (find_field _ _ _) as [[field allowed] parts]. simpl in Hf.
    by rewrite Hf.
  - destruct Hno as (field & allowed & rest & Hres & Hop).
    unfold resolves_to in Hres. simpl in Hres. rewrite Hres.
    destruct (split_suffix allowed rest) as [[op_name negate] parts].
    simpl in Hop. by rewrite Hop.
  - destruct Hneg as (field & allowed & rest & o & Hres & Hn & Hop & Ha).
    unfold resolves_to in Hres. simpl in Hres. rewrite Hres.
    destruct (split_suffix allowed rest) as [[op_name negate] parts].
    simpl in Hn, Hop. by rewrite Hop, Hn, Ha.
Qed.

Lemma filter_loop_omits (r : Resource) (key value : string)
    (before after : dict string) (acc : list pyval) :
  omitted r key → normalizes r value →
  filter_loop r (before ++ (key, value) :: after) acc
  = filter_loop r (before ++ after) acc.
Proof.
  intros Hom Hn. revert acc.
  induction before as [|[k v] before IH]; intros acc; simpl.
  - by rewrite (filter_param_omitted _ _ _ Hom Hn).
  - destruct (filter_param r k v) as [[f|]|e]; simpl; [apply IH | apply IH | done].
Qed.

(** C5 (amended): a parameter whose key matches no declared field, or
    whose suffix has no operator registered for the matched field, or
    which asks for a negation that the operator does not allow, and whose
    value passes the normalisation at the head of the loop (always, when
    the resource has no URI prefix), leaves the outcome of [apply_filters]
    as it is without that parameter: its term is omitted and it raises
    nothing, while the other parameters compile as before.  When all
    parameters are such, the result is the empty filter. *)
Theorem apply_filters_omits (r : Resource) :
  (∀ key value before after, omitted r key → normalizes r value →
     apply_filters r (before ++ (key, value) :: after)
     = apply_filters r (before ++ after))
  ∧ (∀ params, Forall (fun kv => omitted r kv.1 ∧ normalizes r kv.2) params →
       apply_filters r params = Ok (VDict [])).
Proof.
  assert (Hone : ∀ key value before after, omitted r key → normalizes r value →
            apply_filters r (before ++ (key, value) :: after)
            = apply_filters r (before ++ after)).
  { intros key value before after Hom Hn. unfold apply_filters.
    by rewrite (filter_loop_omits _ _ _ _ _ _ Hom Hn). }
  split; [exact Hone|].
  induction params as [|[k v] params IH]; intros Hall; [done|].
  apply Forall_cons in Hall as [[Hom Hn] Hall].
  change ((k, v) :: params) with ([] ++ (k, v) :: params).
  rewrite (Hone k v [] params Hom Hn). by apply IH.
Qed.

(** ** Query assembly *)

(** The rows that iterating the cursor of [get_objects] yields, before
    skip and limit apply. *)
Lemma cursor_rows (r : Resource) (params : dict string) (flt : pyval)
    (st : store) (k : nat) (n : Z) :
  let c := mkCursor (filter (fun d => doc_matches flt d = true) st) k n None in
  cursor_list (match apply_ordering r params with
               | Some (p :: ps) => cursor_sort c (p :: ps)
               | _ => c
               end)
  = (let rows := drop k (matching_rows r params flt st) in
     if n =? 0 then rows else take (Z.abs_nat n) rows)
  ∧ cursor_count (match apply_ordering r params with
                  | Some (p :: ps) => cursor_sort c (p :: ps)
                  | _ => c
                  end)
    = Z.of_nat (length (filter (fun d => doc_matches flt d = true) st)).
Proof.
  pose proof (apply_ordering_nonempty r params) as Hne.
  unfold matching_rows, cursor_list, cursor_count.
  destruct (apply_ordering r params) as [[|p ps]|]; try done.
Qed.

Section Laws.

(** Python's [int] rejects the empty string, and sorting a cursor neither
    adds nor drops documents. *)
Hypothesis py_int_empty : py_int "" = None.
Hypothesis sort_docs_length :
  ∀ order rows, length (sort_docs order rows) = length rows.

Lemma matching_rows_length (r : Resource) (params : dict string)
    (flt : pyval) (st : store) :
  length (matching_rows r params flt st)
  = length (filter (fun d => doc_matches flt d = true) st).
Proof.
  unfold matching_rows. destruct (apply_ordering r params); [|done].
  apply sort_docs_length.
Qed.

(** What [get_skip_and_limit] returns on a paginated resource: a skip that
    is not negative, and a limit within the maximum. *)
Lemma get_skip_and_limit_bounds (r : Resource) (params : dict string)
    (skip limit : Z) :
  paginate r = true → get_skip_and_limit r params = Ok (skip, limit) →
  0 ≤ skip ∧ limit ≤ max_limit r.
Proof.
  intros Hp. unfold get_skip_and_limit, present_and, int_param, int, isint,
    get_max_limit.
  rewrite Hp.
  destruct (dict_get params "_limit") as [l|];
    destruct (dict_get params "_skip") as [s|]; simpl;
    repeat (case_match; simplify_eq/=; try done);
    intros; simplify_eq/=; try (split; lia);
    try (by rewrite py_int_empty in *).
  all: match goal with
       | Hs : str_truthy ?s = false, Hi : py_int ?s = Some _ |- _ =>
           destruct s; [congruence | done]
       end.
Qed.

Lemma removelast_take {A} (n : nat) (l : list A) :
  (n < length l)%nat → removelast (take (S n) l) = take n l.
Proof. apply removelast_firstn. Qed.

(** C1 (amended): on a paginated, non-bulk fetch whose limit [L] is not
    negative, [get_objects] returns the [L] rows that follow the first
    [skip] matching rows, so at most [L] items, together with the number of
    matching rows; and [has_more] holds exactly when more than [L]
    matching rows remain after the first [skip]. *)
Theorem get_objects_page (r : Resource) (view_method : option method)
    (params : dict string) (st : store) (flt : pyval) (skip L : Z) :
  paginate r = true → is_bulk view_method = false →
  apply_filters r params = Ok flt →
  get_skip_and_limit r params = Ok (skip, L) → 0 ≤ L →
  let n := Z.of_nat (length (filter (fun d => doc_matches flt d = true) st)) in
  ∃ objs has_more,
    get_objects r view_method params st = (Ok (objs, Some has_more, n), st)
    ∧ objs = take (Z.to_nat L) (drop (Z.to_nat skip) (matching_rows r params flt st))
    ∧ Z.of_nat (length objs) ≤ L
    ∧ (has_more = true ↔ L < n - skip).
Proof.
  intros Hp Hb Hf Hsl HL n.
  destruct (get_skip_and_limit_bounds r params skip L Hp Hsl) as [Hskip _].
  destruct (cursor_rows r params flt st (Z.to_nat skip) (L + 1)) as [Hrows Hcount].
  unfold get_objects. rewrite Hf. simpl. rewrite Hb, Hsl. simpl.
  unfold cursor_skip. rewrite (proj2 (Z.ltb_ge skip 0) Hskip). simpl.
  unfold find, cursor_limit. simpl. rewrite Hrows, Hcount, Hp. simpl.
  rewrite (proj2 (Z.eqb_neq (L + 1) 0)) by lia.
  replace (Z.abs_nat (L + 1)) with (S (Z.to_nat L)) by lia.
  set (rows := drop (Z.to_nat skip) (matching_rows r params flt st)).
  assert (Hlen : Z.of_nat (length rows) = Z.max 0 (n - skip)).
  { unfold rows, n. rewrite length_drop, matching_rows_length. lia. }
  destruct (L <? Z.of_nat (length (take (S (Z.to_nat L)) rows))) eqn:Hm.
  - apply Z.ltb_lt in Hm. rewrite length_take in Hm.
    eexists _, true. split; [reflexivity|].
    rewrite removelast_take by lia.
    split; [done|]. rewrite length_take. split; [lia|]. split; [lia | done].
  - apply Z.ltb_ge in Hm. rewrite length_take in Hm.
    eexists _, false. split; [reflexivity|].
    rewrite !take_ge by lia.
    split; [done|]. split; [lia|]. split; [done | lia].
Qed.

(** A fetch on a resource without pagination asks the store for
    [max_limit + 1] rows and returns them all. *)
Lemma get_objects_unpaginated (r : Resource) (view_method : option method)
    (params : dict string) (st : store) (flt : pyval) :
  paginate r = false → is_bulk view_method = false →
  apply_filters r params = Ok flt → 0 ≤ max_limit r →
  get_objects r view_method params st
  = (Ok (take (S (Z.to_nat (max_limit r))) (matching_rows r params flt st), None,
         Z.of_nat (length (filter (fun d => doc_matches flt d = true) st))),
     st).
Proof.
  intros Hp Hb Hf Hmax.
  destruct (cursor_rows r params flt st 0 (max_limit r + 1)) as [Hrows Hcount].
  unfold get_objects, get_skip_and_limit, get_max_limit.
  rewrite Hf, Hp. simpl. rewrite Hb. simpl.
  unfold find, cursor_limit. simpl. change (Z.to_nat 0) with 0%nat.
  rewrite Hrows, Hcount. simpl.
  rewrite (proj2 (Z.eqb_neq (max_limit r + 1) 0)) by lia.
  replace (Z.abs_nat (max_limit r + 1)) with (S (Z.to_nat (max_limit r))) by lia.
  done.
Qed.

End Laws.

(** [get_objects] only reads the store. *)
Lemma get_objects_reads_only (r : Resource) (view_method : option method)
    (params : dict string) (st : store) :
  (get_objects r view_method params st).2 = st.
Proof. reflexivity. Qed.

(** C2: a bulk-update fetch takes its rows with the bulk cap as the only
    limit, whatever [_skip] and [_limit] say (they are not even
    validated).  When the fetched rows reach the cap, the call raises the
    validation error and leaves the store as it was; below the cap, every
    matching row is returned. *)
Theorem get_objects_bulk (r : Resource) (params : dict string) (st : store)
    (flt : pyval) :
  apply_filters r params = Ok flt →
  let rows := matching_rows r params flt st in
  let fetched :=
    if bulk_update_limit r =? 0 then rows
    else take (Z.abs_nat (bulk_update_limit r)) rows in
  (bulk_update_limit r ≤ Z.of_nat (length fetched) →
     get_objects r (Some BulkUpdate) params st = (Raise (bulk_limit_error r), st))
  ∧ (Z.of_nat (length fetched) < bulk_update_limit r →
       fetched = rows
       ∧ get_objects r (Some BulkUpdate) params st
         = (Ok (rows, None,
                Z.of_nat (length (filter (fun d => doc_matches flt d = true) st))),
            st)).
Proof.
  intros Hf rows fetched.
  destruct (cursor_rows r params flt st 0 (bulk_update_limit r)) as [Hrows Hcount].
  assert (Hget : get_objects r (Some BulkUpdate) params st
                 = (if bulk_update_limit r <=? Z.of_nat (length fetched)
                    then Raise (bulk_limit_error r)
                    else Ok (fetched, None,
                             Z.of_nat (length (filter (fun d => doc_matches flt d = true) st))),
                    st)).
  { unfold get_objects. rewrite Hf. simpl.
    unfold find, cursor_limit. simpl. rewrite Hrows, Hcount. simpl.
    fold rows. fold fetched. by destruct (bulk_update_limit r <=? _). }
  split.
  - intros Hge. rewrite Hget. by rewrite (proj2 (Z.leb_le _ _) Hge).
  - intros Hlt. rewrite Hget. rewrite (proj2 (Z.leb_gt _ _) Hlt).
    assert (Hall : fetched = rows).
    { unfold fetched in *. destruct (bulk_update_limit r =? 0) eqn:E; [done|].
      rewrite length_take in Hlt. apply take_ge. lia. }
    by rewrite Hall.
Qed.

(** ** Projection *)

(** The two calls of [get_field_value] with a field instance, as
    [serialize_list_field] and [serialize_dict_field] make them. *)
Lemma get_field_value_list_element (r : Resource) (field_name : string)
    (val : pyval) :
  get_field_value r val field_name (Some (FValue val))
  = list_element_value field_name val.
Proof.
  unfold get_field_value, list_element_value, resolve_field_instance. simpl.
  destruct (truthy val) eqn:Ht; [done|].
  destruct val as [| | | | |d| | | | |]; simpl in *; try done.
  by destruct d.
Qed.

Lemma get_field_value_map_element (r : Resource) (field_name : string)
    (f : finst) (elem : pyval) :
  get_field_value r elem field_name (Some (FField f))
  = serialize_declared field_name f elem elem.
Proof. done. Qed.

(** A field that is missing from an object that is not a [dict] is an
    unknown field. *)
Lemma get_field_value_absent (r : Resource) (obj : pyval) (field : string) :
  (∀ d, obj ≠ VDict d) → py_getattr obj field = None →
  get_field_value r obj field None = Raise UnknownFieldError.
Proof.
  intros Hnd Hg. unfold get_field_value. simpl. rewrite Hg.
  destruct obj; try done. by destruct (Hnd d).
Qed.

(** [serialize] passes over such a field: the fallback [value_for_field]
    is tried, raises [UnknownFieldError] too, and the loop goes on with
    the output unchanged. *)
Lemma serialize_loop_omits_absent (r : Resource) (obj : pyval) (field : string)
    (rest : list string) (data : dict pyval) :
  list_mem field (callables r) = false →
  (∀ d, obj ≠ VDict d) → py_getattr obj field = None →
  serialize_loop r obj (field :: rest) data = serialize_loop r obj rest data.
Proof.
  intros Hc Hnd Hg. cbn [serialize_loop]. rewrite Hc.
  by rewrite (get_field_value_absent r obj field Hnd Hg).
Qed.

(** A key that is missing from a [dict] object is a [KeyError], which
    [serialize] does not catch. *)
Lemma serialize_loop_dict_absent (r : Resource) (d : dict pyval) (field : string)
    (rest : list string) (data : dict pyval) :
  list_mem field (callables r) = false → dict_get d field = None →
  serialize_loop r (VDict d) (field :: rest) data = Raise (KeyError field).
Proof.
  intros Hc Hg. cbn [serialize_loop]. rewrite Hc.
  unfold get_field_value. simpl. by rewrite Hg.
Qed.

(** ** Mutation *)










Section EqualLaw.

(** [utils.equal] holds between a value and itself, and so does [==]
    between an identifier and itself. *)
Hypothesis equal_refl : ∀ v, equal v v = true.
Hypothesis py_eq_refl : ∀ v, py_eq v v = true.



End EqualLaw.

End WithExternal.

(** ** The concrete environment *)

Import Concrete.

(** The concrete environment satisfies the laws that the statements above
    assume of it. *)
Lemma concrete_py_int_empty : Concrete.py_int "" = None.
Proof. reflexivity. Qed.

Lemma insert_sorted_length (field : string) (x : pyval) (l : list pyval) :
  length (insert_sorted field x l) = S (length l).
Proof.
  induction l as [|y l IH]; simpl; [done|].
  destruct (String.leb _ _); simpl; [done | by rewrite IH].
Qed.

Lemma concrete_sort_docs_length (order : list string) (rows : list pyval) :
  length (Concrete.sort_docs order rows) = length rows.
Proof.
  destruct order as [|field order]; simpl; [done|].
  induction rows as [|x rows IH]; simpl; [done|].
  by rewrite insert_sorted_length, IH.
Qed.


(** ** Pagination on concrete requests *)

(** C1 (as stated, refuted): with [_skip=3] and [_limit=2] on five
    matching rows, the effective limit is 2 and more than 2 matching rows
    exist, yet [has_more] is false; and with [_limit=-1] the effective
    limit is -1 and four items are returned. *)
Lemma get_objects_page_counterexample :
  get_skip_and_limit UserResource [("_skip", "3"); ("_limit", "2")] = Ok (3, 2)
  ∧ get_objects UserResource (Some Fetch) [("_skip", "3"); ("_limit", "2")] five_users
    = (Ok ([user "d"; user "e"], Some false, 5), five_users)
  ∧ ¬ (Some false = Some true ↔ 2 < 5)
  ∧ get_skip_and_limit UserResource [("_limit", "-1")] = Ok (0, -1)
  ∧ get_objects UserResource (Some Fetch) [("_limit", "-1")] five_users
    = (Ok ([user "a"; user "b"; user "c"; user "d"], Some true, 5), five_users)
  ∧ ¬ (Z.of_nat (length [user "a"; user "b"; user "c"; user "d"]) ≤ -1).
Proof.
  split; [vm_compute; reflexivity|].
  split; [vm_compute; reflexivity|].
  split; [intros [_ Hm]; by specialize (Hm ltac:(lia))|].
  split; [vm_compute; reflexivity|].
  split; [vm_compute; reflexivity|].
  simpl. lia.
Qed.

(** The page of two users after the first one, out of five. *)
Lemma get_objects_page_witness :
  ∃ objs has_more,
    get_objects UserResource (Some Fetch) [("_skip", "1"); ("_limit", "2")] five_users
    = (Ok (objs, Some has_more, 5), five_users)
    ∧ objs = take 2 (drop 1 (matching_rows UserResource
                               [("_skip", "1"); ("_limit", "2")] (VDict []) five_users))
    ∧ Z.of_nat (length objs) ≤ 2
    ∧ (has_more = true ↔ 2 < 5 - 1).
Proof.
  apply (get_objects_page (H := concrete) concrete_py_int_empty concrete_sort_docs_length
           UserResource (Some Fetch) [("_skip", "1"); ("_limit", "2")]
           five_users (VDict []) 1 2).
  - reflexivity.
  - reflexivity.
  - vm_compute. reflexivity.
  - vm_compute. reflexivity.
  - lia.
Defined.

(** C6 (code at a failing input): [_limit=-5] passes the validation and
    comes back as the limit, whereas [_skip=-5] is refused. *)
Theorem negative_limit_is_accepted :
  get_skip_and_limit UserResource [("_limit", "-5")] = Ok (0, -5)
  ∧ get_skip_and_limit UserResource [("_skip", "-5")]
    = Raise (negative_skip_error "-5").
Proof. split; vm_compute; reflexivity. Qed.

(** [_limit=10000] against a maximum of 100. *)
Lemma limit_10000_is_refused :
  get_skip_and_limit UserResource [("_limit", "10000")]
  = Raise (ValidationError (ErrorMsg
      "The limit you set is larger than the maximum limit for this resource (max_limit = 100).")).
Proof.
  rewrite (limit_must_not_exceed_max UserResource [("_limit", "10000")] "10000" 10000);
    try done.
Qed.

(** C8 (code at a failing input): on a resource without pagination whose
    [max_limit] is 2, a fetch over five matching rows returns three of
    them, with or without [_skip] and [_limit]. *)
Theorem unpaginated_fetch_is_capped :
  get_objects UnpaginatedResource (Some Fetch) [] five_users
  = (Ok ([user "a"; user "b"; user "c"], None, 5), five_users)
  ∧ get_objects UnpaginatedResource (Some Fetch)
      [("_skip", "1"); ("_limit", "4")] five_users
    = (Ok ([user "a"; user "b"; user "c"], None, 5), five_users).
Proof. split; vm_compute; reflexivity. Qed.

(** Five users against a bulk cap of 3, with a [_limit] that pagination
    would refuse. *)
Lemma get_objects_bulk_witness :
  get_objects BulkResource (Some BulkUpdate) [("_limit", "abc")] five_users
  = (Raise (bulk_limit_error BulkResource), five_users).
Proof.
  apply (proj1 (get_objects_bulk BulkResource [("_limit", "abc")] five_users
                  (VDict []) ltac:(vm_compute; reflexivity))).
  vm_compute. discriminate.
Defined.

(** ** Ordering on a concrete request *)

(** C7: on a resource whose allowed ordering fields are [firstname] and
    [lastname], each of the two is honoured alone, but the request for
    both, [_order_by=firstname,lastname], gets no ordering although every
    field it lists is allowed: the membership test is made on the value
    as sent, before it is split on commas. *)
Theorem allowed_fields_together_are_refused :
  Forall (fun f => f ∈ allowed_ordering OrderedResource)
         (split "," "firstname,lastname")
  ∧ apply_ordering OrderedResource [("_order_by", "firstname,lastname")] = None
  ∧ apply_ordering OrderedResource [("_order_by", "firstname")] = Some ["firstname"]
  ∧ apply_ordering OrderedResource [("_order_by", "lastname")] = Some ["lastname"].
Proof.
  split; [|by vm_compute].
  assert (split "," "firstname,lastname" = ["firstname"; "lastname"]) as ->
    by (vm_compute; reflexivity).
  apply Forall_cons. split; [apply list_elem_of_here|].
  apply Forall_cons. split; [apply list_elem_of_further, list_elem_of_here|].
  apply Forall_nil. exact I.
Qed.

(** ** Filters on concrete requests *)

(** A last part that names no operator of the field is taken as part of
    a lookup and compiled with [exact]. *)
Lemma unknown_suffix_is_a_lookup :
  apply_filters UserResource [("firstname__gte", "Bob")]
  = Ok (VDict [("$and", VList [VDict [("firstname__gte", VStr "Bob")]])]).
Proof. vm_compute. reflexivity. Qed.

(** The scenario of the specification: [?firstname__ne=Bob]. *)
Lemma firstname_ne_Bob :
  apply_filters UserResource [("firstname__ne", "Bob")]
  = Ok (VDict [("$and", VList [VDict [("firstname", VDict [("$ne", VStr "Bob")])]])]).
Proof. vm_compute. reflexivity. Qed.

Lemma zzz_is_undeclared (r : Resource) :
  filters r = filters UserResource → omitted r "zzz".
Proof.
  intros Hf. left. unfold no_declared_field, get_filters. rewrite Hf.
  intros i Hi. simpl in Hi.
  assert (i = 1 ∨ i = 2)%nat as [-> | ->] by lia; vm_compute; reflexivity.
Qed.

(** C5 (as stated, refuted): on a resource with a URI prefix, the key
    [zzz] matches no declared field, and yet [apply_filters] raises on
    it, because the value is parsed as a URL before the key is looked at. *)
Lemma apply_filters_omits_counterexample :
  omitted UriResource "zzz"
  ∧ apply_filters UriResource [("zzz", "//[")] = Raise ValueError
  ∧ apply_filters UriResource [] = Ok (VDict []).
Proof.
  split; [by apply zzz_is_undeclared|].
  split; vm_compute; reflexivity.
Qed.

(** Without a URI prefix the undeclared key [zzz] is left out whatever
    its value. *)
Lemma apply_filters_omits_witness :
  apply_filters UserResource
    ([("nick", "x")] ++ ("zzz", "//[") :: [("firstname__ne", "Bob")])
  = apply_filters UserResource ([("nick", "x")] ++ [("firstname__ne", "Bob")])
  ∧ apply_filters UserResource [("zzz", "1")] = Ok (VDict []).
Proof.
  split.
  - apply (proj1 (apply_filters_omits UserResource)).
    + by apply zzz_is_undeclared.
    + left. reflexivity.
  - apply (proj2 (apply_filters_omits UserResource)).
    apply Forall_cons. split; [|apply Forall_nil; exact I].
    split; [by apply zzz_is_undeclared | left; reflexivity].
Defined.

(** ** Projection on concrete objects *)

(** C9 (code at a failing input): serializing a [dict] object that lacks
    the requested field [firstname] raises [KeyError]; the fallback is not
    tried and nothing is returned.  A document object that lacks the
    attribute is serialized without it. *)
Theorem serialize_dict_missing_key :
  serialize UserResource raw_user (Some ["nick"; "firstname"]) (Some [])
  = Raise (KeyError "firstname")
  ∧ serialize UserResource (VDoc "User" [("nick", VStr "bob")] None [])
      (Some ["nick"; "firstname"]) (Some [])
    = Ok [("nick", VStr "bob")].
Proof. split; vm_compute; reflexivity. Qed.

(** Serializing a user without [params]. *)
Lemma get_requested_fields_requires_params_witness :
  serialize UserResource (user "a") None None = Raise TypeError.
Proof.
  apply (proj1 (proj2 (get_requested_fields_requires_params UserResource None))
           (user "a")); reflexivity.
Defined.

(** ** Mutation on a concrete object *)


End Properties.

(** * Further properties of the code *)

Module Coverage.
Import Operators Resources Lifecycle Properties.

(** ** Strings *)

Lemma append_cons (c : ascii) (a b : string) :
  String c a +:+ b = String c (a +:+ b).
Proof. reflexivity. Qed.

Lemma append_nil_r (s : string) : s +:+ "" = s.
Proof. induction s as [|c s IH]; [done|]. by rewrite append_cons, IH. Qed.

Lemma append_assoc (a b c : string) : (a +:+ b) +:+ c = a +:+ (b +:+ c).
Proof. induction a as [|x a IH]; [done|]. by rewrite !append_cons, IH. Qed.

Lemma length_append (a b : string) :
  String.length (a +:+ b) = (String.length a + String.length b)%nat.
Proof. induction a as [|x a IH]; [done|]. rewrite append_cons. simpl. by rewrite IH. Qed.

Lemma prefix_append (p s : string) :
  String.prefix p s = true → ∃ t, s = p +:+ t.
Proof.
  revert s. induction p as [|a p IH]; intros s Hp.
  - by exists s.
  - destruct s as [|b s]; [done|]. simpl in Hp.
    destruct (ascii_dec a b) as [->|]; [|done].
    destruct (IH s Hp) as [t ->]. exists t. by rewrite append_cons.
Qed.

Lemma string_of_list_ascii_app (l1 l2 : list ascii) :
  String.string_of_list_ascii (l1 ++ l2)
  = String.string_of_list_ascii l1 +:+ String.string_of_list_ascii l2.
Proof. induction l1 as [|x l1 IH]; [done|]. simpl. by rewrite IH. Qed.

Lemma rev_string_cons (c : ascii) (cur : list ascii) (s : string) :
  rev_string (c :: cur) +:+ s = rev_string cur +:+ String c s.
Proof.
  unfold rev_string. simpl. rewrite string_of_list_ascii_app, append_assoc.
  done.
Qed.

Lemma split_go_skip (sep t s : string) (cur : list ascii) :
  split_go sep (t +:+ s) (String.length t) cur = split_go sep s O cur
  ∨ (s = "" ∧ split_go sep (t +:+ s) (String.length t) cur = [rev_string cur]).
Proof.
  induction t as [|c t IH]; [by left|]. cbn [String.length]. rewrite append_cons.
  cbn [split_go]. exact IH.
Qed.

Lemma split_go_skip_eq (sep t s : string) (cur : list ascii) :
  sep ≠ "" →
  split_go sep (t +:+ s) (String.length t) cur = split_go sep s O cur.
Proof.
  intros Hsep. destruct (split_go_skip sep t s cur) as [He|[-> He]]; [done|].
  by rewrite He.
Qed.

Lemma join_cons (sep x : string) (l : list string) :
  l ≠ [] → join sep (x :: l) = x +:+ sep +:+ join sep l.
Proof. by destruct l. Qed.

(** Joining the pieces of a split gives the string back. *)
Lemma join_split_go (sep : string) (n : nat) :
  sep ≠ "" → ∀ s cur, (String.length s ≤ n)%nat →
  join sep (split_go sep s O cur) = rev_string cur +:+ s.
Proof.
  intros Hsep. induction n as [|n IH]; intros s cur Hn.
  - destruct s; [|simpl in Hn; lia]. simpl. by rewrite append_nil_r.
  - destruct s as [|c s]; [simpl; by rewrite append_nil_r|].
    cbn [split_go]. destruct (String.prefix sep (String c s)) eqn:Hp.
    + destruct (prefix_append _ _ Hp) as [t Ht].
      destruct sep as [|a sep']; [done|]. rewrite append_cons in Ht.
      injection Ht as -> ->. cbn [String.length Nat.pred].
      rewrite split_go_skip_eq by done.
      rewrite join_cons by apply split_go_nonempty.
      rewrite IH.
      * change (rev_string []) with "". by rewrite append_cons.
      * simpl in Hn. rewrite length_append in Hn. lia.
    + rewrite IH by (simpl in Hn; lia). apply rev_string_cons.
Qed.

Lemma join_split (sep s : string) : sep ≠ "" → join sep (split sep s) = s.
Proof.
  intros Hsep. unfold split.
  by rewrite (join_split_go sep (String.length s) Hsep s []).
Qed.

(** ** Operators *)

(** X1: on the values that a query string gives to the filter compiler, a
    string or, for an empty parameter, [None], [apply] raises exactly when
    the operator is [In] and the value is [None]: the test [',' in value]
    is then a [TypeError].  (Values of other types, which a JSON payload
    can carry in [_params], are not among the values of [apply] here.) *)
Theorem apply_raises_only_In_on_null (o : operator) (field : string)
    (value : option string) (negate : bool) (e : exn) :
  Operators.apply o field value negate = Raise e
  ↔ cls o = In ∧ value = None ∧ e = TypeError.
Proof.
  unfold Operators.apply, prepare_queryset_kwargs. split.
  - destruct (cls o); try done; try (by destruct negate).
    destruct value as [s|]; [|by intros [= <-]].
    destruct (contains_char _ s); done.
  - intros (-> & -> & ->). done.
Qed.

(** Every fragment constrains the one field it was built for. *)
Lemma apply_single_field (o : operator) (field : string)
    (value : option string) (negate : bool) (q : pyval) :
  Operators.apply o field value negate = Ok q → ∃ x, q = VDict [(field, x)].
Proof.
  unfold Operators.apply, prepare_queryset_kwargs, base_prepare_queryset_kwargs.
  destruct (cls o); try (destruct negate; intros [= <-]; by eexists);
    try (intros [= <-]; by eexists).
  destruct value as [s|]; [|done].
  destruct (contains_char _ s); intros [= <-]; by eexists.
Qed.

(** ** The greedy match of a filter key *)

(** X2: the loop [for i in range(len(parts) + 1, 0, -1)]: the match ends on
    the longest prefix of the parts whose joined name has a non-empty
    operator table, and hands on the parts after it; when no prefix has one,
    it ends on the first part with all parts left. *)
Theorem find_field_longest_prefix (flt : gmap string (gmap string operator))
    (parts : list string) (n : nat) :
  (∀ i : nat, (1 ≤ i ≤ S n)%nat →
     ops_truthy (flt !! join "__" (take i parts)) = true →
     (∀ j : nat, (i < j ≤ S n)%nat →
        ops_truthy (flt !! join "__" (take j parts)) = false) →
     find_field flt parts n
     = (join "__" (take i parts), flt !! join "__" (take i parts), drop i parts))
  ∧ ((∀ j : nat, (1 ≤ j ≤ S n)%nat →
        ops_truthy (flt !! join "__" (take j parts)) = false) →
     find_field flt parts n
     = (join "__" (take 1 parts), flt !! join "__" (take 1 parts), parts)).
Proof.
  induction n as [|n [IH1 IH2]].
  - split.
    + intros i Hi Ht _. assert (i = 1%nat) as -> by lia.
      cbn [find_field]. by rewrite Ht.
    + intros Hf. cbn [find_field]. by rewrite (Hf 1%nat) by lia.
  - split.
    + intros i Hi Ht Hlonger. cbn [find_field].
      destruct (decide (i = S (S n))) as [->|Hne]; [by rewrite Ht|].
      rewrite (Hlonger (S (S n))) by lia.
      apply IH1; [lia | done |]. intros j Hj. apply Hlonger. lia.
    + intros Hf. cbn [find_field]. rewrite (Hf (S (S n))) by lia.
      apply IH2. intros j Hj. apply Hf. lia.
Qed.

Section WithExternal.
Context `{External}.

(** ** Filters *)

(** X3: a parameter whose key is, as a whole, a declared filter field with
    an operator registered under the empty suffix compiles to that operator
    on the underlying field name, without negation. *)
Theorem filter_param_exact_key (r : Resource) (key value : string)
    (ops : gmap string operator) (o : operator) (v : option string) :
  get_filters r !! key = Some ops → ops !! "" = Some o →
  normalize_value r value = Ok v →
  filter_param r key value
  = (f ← Operators.apply o (reverse_rename r key) v false; Ok (Some f)).
Proof.
  intros Hk Ho Hv. unfold filter_param. rewrite Hv. simpl.
  assert (Hfind : find_field (get_filters r) (split "__" key)
                    (length (split "__" key)) = (key, Some ops, [])).
  { destruct (length (split "__" key)) as [|n] eqn:Hlen.
    - apply length_zero_iff_nil in Hlen. by apply split_nonempty in Hlen.
    - cbn [find_field].
      rewrite take_ge by lia. rewrite join_split by done. rewrite Hk.
      assert (ops_truthy (Some ops) = true) as ->.
      { unfold ops_truthy. apply negb_true_iff, bool_decide_eq_false_2.
        intros ->. by rewrite lookup_empty in Ho. }
      by rewrite drop_ge by lia. }
  rewrite Hfind. simpl. by rewrite Ho.
Qed.

Lemma filter_loop_fragments (r : Resource) (params : dict string)
    (acc fs : list pyval) :
  filter_loop r params acc = Ok fs →
  ∃ new, fs = acc ++ new ∧ (length new ≤ length params)%nat
         ∧ Forall (fun f => ∃ field x, f = VDict [(field, x)]) new.
Proof.
  revert acc. induction params as [|[k v] params IH]; intros acc; simpl.
  - intros [= <-]. exists []. by rewrite app_nil_r.
  - destruct (filter_param r k v) as [[f|]|e] eqn:Hf; simpl; [| |done].
    + intros (new & -> & Hlen & Hall)%IH. exists (f :: new).
      rewrite <- app_assoc. split; [done|]. split; [simpl; lia|].
      apply Forall_cons. split; [|done].
      unfold filter_param in Hf.
      destruct (normalize_value r v) as [v'|]; simpl in Hf; [|done].
      destruct (find_field _ _ _) as [[field allowed] parts].
      destruct allowed as [allowed|]; [|done].
      destruct (split_suffix allowed parts) as [[op_name negate] parts'].
      destruct (allowed !! op_name) as [o|]; [|done].
      destruct (negate && negb (allow_negation o)); [done|].
      destruct (Operators.apply o _ v' negate) as [q|] eqn:Ha; simpl in Hf; [|done].
      injection Hf as <-. destruct (apply_single_field _ _ _ _ _ Ha) as [x ->].
      by eexists _, _.
    + intros (new & -> & Hlen & Hall)%IH. exists new.
      split; [done|]. split; [lia | done].
Qed.

(** X4: what [apply_filters] returns is the empty filter or an [$and] of at
    least one fragment; there are at most as many fragments as parameters,
    and each constrains a single field. *)
Theorem apply_filters_shape (r : Resource) (params : dict string) (q : pyval) :
  apply_filters r params = Ok q →
  q = VDict []
  ∨ ∃ fs, fs ≠ [] ∧ q = VDict [("$and", VList fs)]
          ∧ (length fs ≤ length params)%nat
          ∧ Forall (fun f => ∃ field x, f = VDict [(field, x)]) fs.
Proof.
  unfold apply_filters.
  destruct (filter_loop r params []) as [fs|] eqn:Hl; simpl; [|done].
  destruct (filter_loop_fragments _ _ _ _ Hl) as (new & -> & Hlen & Hall).
  simpl in *. destruct new as [|f new]; intros [= <-]; [by left|].
  right. by exists (f :: new).
Qed.

Lemma filter_loop_app (r : Resource) (p1 p2 : dict string) (acc : list pyval) :
  filter_loop r (p1 ++ p2) acc = (fs ← filter_loop r p1 acc; filter_loop r p2 fs).
Proof.
  revert acc. induction p1 as [|[k v] p1 IH]; intros acc; simpl; [done|].
  destruct (filter_param r k v) as [[f|]|e]; simpl; [apply IH | apply IH | done].
Qed.

Lemma filter_loop_acc (r : Resource) (params : dict string) (acc : list pyval) :
  filter_loop r params acc = (fs ← filter_loop r params []; Ok (acc ++ fs)).
Proof.
  revert acc. induction params as [|[k v] params IH]; intros acc; simpl.
  - by rewrite app_nil_r.
  - destruct (filter_param r k v) as [[f|]|e]; simpl; [| apply IH | done].
    rewrite (IH (acc ++ [f])), (IH [f]).
    destruct (filter_loop r params []); simpl; [|done]. by rewrite <- app_assoc.
Qed.

(** X5: the fragments of two parameter lists, one after the other, are those
    of the first followed by those of the second; an error of the first list
    comes first. *)
Theorem filter_loop_compose (r : Resource) (p1 p2 : dict string) :
  filter_loop r (p1 ++ p2) []
  = match filter_loop r p1 [] with
    | Ok f1 =>
        match filter_loop r p2 [] with
        | Ok f2 => Ok (f1 ++ f2)
        | Raise e => Raise e
        end
    | Raise e => Raise e
    end.
Proof.
  rewrite filter_loop_app. destruct (filter_loop r p1 []) as [f1|]; simpl; [|done].
  rewrite filter_loop_acc. by destruct (filter_loop r p2 []).
Qed.

End WithExternal.

(** ** Dictionaries *)

Lemma dict_get_elem {V} (d : dict V) (k : string) (v : V) :
  dict_get d k = Some v → (k, v) ∈ d.
Proof.
  induction d as [|[k' v'] d IH]; simpl; [done|].
  destruct (str_eqb k k') eqn:E.
  - apply str_eqb_eq in E as <-. intros [= <-]. apply list_elem_of_here.
  - intros Hg. by apply list_elem_of_further, IH.
Qed.

Lemma dict_get_None {V} (d : dict V) (k : string) :
  dict_get d k = None ↔ k ∉ d.*1.
Proof.
  induction d as [|[k' v'] d IH]; simpl.
  - split; [intros _; apply not_elem_of_nil | done].
  - rewrite not_elem_of_cons. destruct (str_eqb k k') eqn:E.
    + apply str_eqb_eq in E as <-. split; [done | by intros [? _]].
    + rewrite IH. split; [|by intros [_ ?]].
      intros Hn. split; [|done]. intros ->. by rewrite str_eqb_refl in E.
Qed.

Lemma dict_get_NoDup {V} (d : dict V) (k : string) (v : V) :
  NoDup d.*1 → (k, v) ∈ d → dict_get d k = Some v.
Proof.
  induction d as [|[k' v'] d IH]; simpl.
  - by intros _ ?%elem_of_nil.
  - rewrite NoDup_cons. intros [Hk Hnd] [[= <- <-]|Hin]%elem_of_cons.
    + by rewrite str_eqb_refl.
    + rewrite str_eqb_ne; [by apply IH|].
      intros ->. apply Hk. apply list_elem_of_fmap. by exists (k', v).
Qed.

(** ** Renaming *)

Lemma foldl_insert_frame (l : list (string * string)) (m : gmap string string)
    (v : string) :
  v ∉ l.*2 → foldl (fun m kv => <[kv.2 := kv.1]> m) m l !! v = m !! v.
Proof.
  revert m. induction l as [|[k0 v0] l IH]; intros m; [done|].
  rewrite fmap_cons, not_elem_of_cons. intros [Hne Hnot]. simpl.
  rewrite IH by done. by apply lookup_insert_ne.
Qed.

Lemma foldl_insert_lookup (l : list (string * string)) (m : gmap string string)
    (k v : string) :
  NoDup l.*2 → (k, v) ∈ l → foldl (fun m kv => <[kv.2 := kv.1]> m) m l !! v = Some k.
Proof.
  revert m. induction l as [|[k0 v0] l IH]; intros m.
  - by intros _ ?%elem_of_nil.
  - rewrite fmap_cons, NoDup_cons. intros [Hv Hnd] [[= <- <-]|Hin]%elem_of_cons; simpl.
    + rewrite foldl_insert_frame by done. apply lookup_insert_eq.
    + by apply IH.
Qed.

Lemma foldl_insert_dom (l : list (string * string)) (m : gmap string string) :
  dom (foldl (fun m kv => <[kv.2 := kv.1]> m) m l) = list_to_set l.*2 ∪ dom m.
Proof.
  revert m. induction l as [|[k0 v0] l IH]; intros m.
  - rewrite fmap_nil, list_to_set_nil. by rewrite (left_id_L ∅ (∪)).
  - rewrite fmap_cons, list_to_set_cons. cbn [foldl snd fst].
    rewrite IH, dom_insert_L.
    by rewrite (assoc_L (∪)), (comm_L (∪) _ {[v0]}).
Qed.

Lemma size_list_to_set_le (l : list string) :
  (size (list_to_set (C := gset string) l) ≤ length l)%nat.
Proof.
  induction l as [|x l IH].
  - rewrite list_to_set_nil, size_empty. done.
  - rewrite list_to_set_cons. cbn [length].
    rewrite size_union_alt, size_singleton.
    assert (size (list_to_set (C := gset string) l ∖ {[x]})
            ≤ size (list_to_set (C := gset string) l))%nat.
    { apply subseteq_size, subseteq_difference_l. done. }
    lia.
Qed.

Lemma size_list_to_set_NoDup (l : list string) :
  size (list_to_set (C := gset string) l) = length l ↔ NoDup l.
Proof.
  split; [|apply size_list_to_set].
  induction l as [|x l IH]; [constructor|].
  rewrite list_to_set_cons. cbn [length]. intros Hs.
  pose proof (size_list_to_set_le l) as Hle.
  destruct (decide (x ∈ l)) as [Hin|Hnot].
  - assert ({[x]} ∪ list_to_set l = list_to_set (C := gset string) l) as Heq.
    { apply subseteq_union_1_L, singleton_subseteq_l, elem_of_list_to_set. done. }
    rewrite Heq in Hs. lia.
  - apply NoDup_cons. split; [done|]. apply IH.
    rewrite size_union in Hs.
    + rewrite size_singleton in Hs. lia.
    + apply disjoint_singleton_l. by rewrite elem_of_list_to_set.
Qed.

Lemma init_assertion_NoDup (r : Resource) :
  NoDup (rename_fields r).*1 →
  init_assertion r = true ↔ NoDup (rename_fields r).*2.
Proof.
  intros Hkeys. unfold init_assertion, _reverse_rename_fields, get_rename_fields.
  rewrite bool_decide_eq_true, (size_list_to_set _ Hkeys).
  rewrite <- size_dom, foldl_insert_dom, dom_empty_L.
  rewrite (right_id_L ∅ (∪)), <- size_list_to_set_NoDup.
  rewrite !length_fmap. split; intros Heq; by rewrite Heq.
Qed.

(** X6: for a rename map that is a dictionary (its keys are distinct), the
    assertion of [__init__] holds exactly when no two fields are renamed to
    the same name. *)
Theorem init_assertion_injective (r : Resource) :
  NoDup (rename_fields r).*1 →
  init_assertion r = true ↔ NoDup (rename_fields r).*2.
Proof. apply init_assertion_NoDup. Qed.

(** X7: when the rename map is a dictionary (its keys are distinct) and the
    assertion holds, reverse renaming undoes renaming on every renamed
    field, and on every name that is not the public name of another field. *)
Theorem reverse_rename_rename (r : Resource) (field : string) :
  NoDup (rename_fields r).*1 → init_assertion r = true →
  field ∈ (rename_fields r).*1 ∨ field ∉ (rename_fields r).*2 →
  reverse_rename r (rename r field) = field.
Proof.
  intros Hkeys Hinj Hf. apply (init_assertion_NoDup r Hkeys) in Hinj.
  unfold reverse_rename, rename, _reverse_rename_fields, get_rename_fields.
  destruct (dict_get (rename_fields r) field) as [v|] eqn:Hg; simpl.
  - by rewrite (foldl_insert_lookup _ _ field v Hinj (dict_get_elem _ _ _ Hg)).
  - apply dict_get_None in Hg. destruct Hf as [Hf|Hf]; [done|].
    by rewrite foldl_insert_frame, lookup_empty.
Qed.

(** X8: renaming undoes reverse renaming on every public name, and on every
    name that is not a renamed field, when the rename map is a dictionary
    (its keys are distinct). *)
Theorem rename_reverse_rename (r : Resource) (public : string) :
  NoDup (rename_fields r).*1 → init_assertion r = true →
  public ∈ (rename_fields r).*2 ∨ public ∉ (rename_fields r).*1 →
  rename r (reverse_rename r public) = public.
Proof.
  intros Hkeys Hinj Hp. apply (init_assertion_NoDup r Hkeys) in Hinj.
  unfold reverse_rename, rename, _reverse_rename_fields, get_rename_fields.
  destruct (decide (public ∈ (rename_fields r).*2)) as [Hin|Hnot].
  - apply list_elem_of_fmap in Hin as ([k v] & -> & Hin). simpl.
    rewrite (foldl_insert_lookup _ _ k v Hinj Hin). simpl.
    by rewrite (dict_get_NoDup _ k v Hkeys Hin).
  - rewrite foldl_insert_frame, lookup_empty by done. simpl.
    destruct Hp as [Hp|Hp]; [done|].
    apply dict_get_None in Hp. by rewrite Hp.
Qed.

(** ** The filter table *)

Lemma foldl_filters_frame (l : dict (list operator))
    (m : gmap string (gmap string operator)) (field : string) :
  field ∉ l.*1 →
  foldl (fun fs fo => <[fo.1 := field_filters fo.2]> fs) m l !! field = m !! field.
Proof.
  revert m. induction l as [|[k0 v0] l IH]; intros m; [done|].
  rewrite fmap_cons, not_elem_of_cons. intros [Hne Hnot]. simpl.
  rewrite IH by done. by apply lookup_insert_ne.
Qed.

Lemma foldl_filters_lookup (l : dict (list operator))
    (m : gmap string (gmap string operator)) (field : string) :
  NoDup l.*1 →
  foldl (fun fs fo => <[fo.1 := field_filters fo.2]> fs) m l !! field
  = match dict_get l field with
    | Some ops => Some (field_filters ops)
    | None => m !! field
    end.
Proof.
  revert m. induction l as [|[k0 v0] l IH]; intros m; [done|].
  rewrite fmap_cons, NoDup_cons. intros [Hk Hnd]. simpl.
  destruct (str_eqb field k0) eqn:E.
  - apply str_eqb_eq in E as ->.
    rewrite foldl_filters_frame by done. apply lookup_insert_eq.
  - rewrite IH by done. destruct (dict_get l field); [done|].
    apply lookup_insert_ne. intros ->. by rewrite str_eqb_refl in E.
Qed.

(** X9: [get_filters] maps each field of [filters] to the table built from
    its operators, and no other name. *)
Theorem get_filters_lookup (r : Resource) (field : string) :
  NoDup (filters r).*1 →
  get_filters r !! field = field_filters <$> dict_get (filters r) field.
Proof.
  intros Hnd. unfold get_filters. rewrite foldl_filters_lookup by done.
  destruct (dict_get (filters r) field); [done|]. apply lookup_empty.
Qed.

Lemma op_nonempty (c : op_class) : op c ≠ "".
Proof. by destruct c. Qed.

Lemma field_filters_snoc (ops : list operator) (o : operator) :
  field_filters (ops ++ [o])
  = <[op (cls o) := o]>
      (if str_eqb (op (cls o)) "exact" then <["" := o]> (field_filters ops)
       else field_filters ops).
Proof. unfold field_filters. by rewrite foldl_app. Qed.

(** X10: the table of a field: a suffix finds the last operator declared
    under that name, the empty suffix finds the last operator declared
    under the name [exact], and a suffix under which no operator is
    declared finds nothing. *)
Theorem field_filters_registered (ops : list operator) (n : string) :
  field_filters ops !! n
  = last (filter (fun o => op (cls o) = if str_eqb n "" then "exact" else n) ops).
Proof.
  induction ops as [|o ops IH] using rev_ind.
  - unfold field_filters. simpl. by rewrite lookup_empty.
  - rewrite field_filters_snoc, filter_app.
    assert (Hyes : op (cls o) = (if str_eqb n "" then "exact" else n) →
              last (filter (fun o => op (cls o) = if str_eqb n "" then "exact" else n) ops
                    ++ filter (fun o => op (cls o) = if str_eqb n "" then "exact" else n) [o])
              = Some o).
    { intros Hp. rewrite filter_cons_True by done. rewrite filter_nil. apply last_snoc. }
    assert (Hno : op (cls o) ≠ (if str_eqb n "" then "exact" else n) →
              last (filter (fun o => op (cls o) = if str_eqb n "" then "exact" else n) ops
                    ++ filter (fun o => op (cls o) = if str_eqb n "" then "exact" else n) [o])
              = field_filters ops !! n).
    { intros Hp. rewrite filter_cons_False by done. rewrite filter_nil, app_nil_r.
      by rewrite IH. }
    destruct (decide (op (cls o) = n)) as [<-|Hne].
    + rewrite lookup_insert_eq, Hyes; [done|].
      rewrite str_eqb_ne; [done | apply op_nonempty].
    + rewrite lookup_insert_ne by done.
      destruct (str_eqb (op (cls o)) "exact") eqn:E.
      * apply str_eqb_eq in E. destruct (decide (n = "")) as [->|Hn].
        -- rewrite lookup_insert_eq, Hyes; [done|]. by rewrite str_eqb_refl.
        -- rewrite lookup_insert_ne by done. rewrite Hno; [done|].
           by rewrite str_eqb_ne.
      * rewrite Hno; [done|]. destruct (str_eqb n "") eqn:En; [|done].
        intros Heq. by rewrite Heq, str_eqb_refl in E.
Qed.

Section WithExternal.
Context `{External}.

(** ** Pagination parameters *)

Section IntLaw.
Hypothesis py_int_empty : py_int "" = None.

(** X11: what a successful validation returns on a paginated resource: the
    skip is the integer given (0 when absent) and is not negative; the limit
    is the integer given (the default, capped by the maximum, when absent)
    and does not exceed the maximum. *)
Theorem get_skip_and_limit_sanitized (r : Resource) (params : dict string)
    (skip limit : Z) :
  paginate r = true → get_skip_and_limit r params = Ok (skip, limit) →
  0 ≤ skip ∧ limit ≤ max_limit r
  ∧ match dict_get params "_skip" with
    | Some s => py_int s = Some skip
    | None => skip = 0
    end
  ∧ match dict_get params "_limit" with
    | Some s => py_int s = Some limit
    | None => limit = Z.min (default_limit r) (max_limit r)
    end.
Proof.
  intros Hp. unfold get_skip_and_limit, present_and, int_param, int, isint,
    get_max_limit.
  rewrite Hp.
  destruct (dict_get params "_limit") as [l|];
    destruct (dict_get params "_skip") as [s|]; simpl;
    repeat (case_match; simplify_eq/=; try done);
    intros; simplify_eq/=;
    try (by rewrite py_int_empty in *);
    try match goal with
        | Hs : str_truthy ?s = false, Hi : py_int ?s = Some _ |- _ =>
            destruct s; [congruence | done]
        end;
    repeat split; try done; try lia; try (f_equal; lia).
Qed.

(** X12: on a paginated resource the validation succeeds exactly when
    [_limit], if present, is an integer within the maximum and [_skip], if
    present, is an integer that is not negative. *)
Theorem get_skip_and_limit_accepts (r : Resource) (params : dict string) :
  paginate r = true →
  is_ok (get_skip_and_limit r params) = true
  ↔ (∀ s, dict_get params "_limit" = Some s →
       ∃ z, py_int s = Some z ∧ z ≤ max_limit r)
    ∧ (∀ s, dict_get params "_skip" = Some s →
         ∃ z, py_int s = Some z ∧ 0 ≤ z).
Proof.
  intros Hp. unfold get_skip_and_limit, present_and, int_param, int, isint,
    get_max_limit.
  rewrite Hp. split.
  - destruct (dict_get params "_limit") as [l|];
      destruct (dict_get params "_skip") as [s|]; simpl;
      repeat (case_match; simplify_eq/=; try done);
      intros _; (split; intros s' [= <-] || intros s' [=]);
      try (eexists; split; [done | lia]);
      try match goal with
          | Hs : str_truthy ?s = false, Hi : py_int ?s = Some _ |- _ =>
              destruct s; [congruence | done]
          end.
  - intros [Hl Hs].
    destruct (dict_get params "_limit") as [l|];
      destruct (dict_get params "_skip") as [s|]; simpl;
      try (destruct (Hl l eq_refl) as (zl & Hzl & Hlm); rewrite Hzl);
      try (destruct (Hs s eq_refl) as (zs & Hzs & Hsm); rewrite Hzs);
      simpl;
      repeat (rewrite ?bool_decide_eq_true_2 by done; simpl);
      repeat (case_match; simplify_eq/=; try done; try lia).
  done.
Qed.

(** X13: the error of a failed validation, by the first check that fails: a
    [_limit] that is not an integer, then a [_skip] that is not an integer,
    then a [_limit] above the maximum, then a negative [_skip]. *)
Theorem get_skip_and_limit_errors (r : Resource) (params : dict string) :
  paginate r = true →
  (∀ s, dict_get params "_limit" = Some s → py_int s = None →
     get_skip_and_limit r params = Raise (not_integer_error "_limit" s))
  ∧ (∀ s, isint (dict_get params "_limit") = true →
       dict_get params "_skip" = Some s → py_int s = None →
       get_skip_and_limit r params = Raise (not_integer_error "_skip" s))
  ∧ (∀ s z, dict_get params "_limit" = Some s → py_int s = Some z →
       max_limit r < z → isint (dict_get params "_skip") = true →
       get_skip_and_limit r params = Raise (max_limit_error (max_limit r)))
  ∧ (∀ s z, (∀ l, dict_get params "_limit" = Some l →
                ∃ zl, py_int l = Some zl ∧ zl ≤ max_limit r) →
       dict_get params "_skip" = Some s → py_int s = Some z → z < 0 →
       get_skip_and_limit r params = Raise (negative_skip_error s)).
Proof.
  intros Hp. split; [|split; [|split]].
  - intros s Hl Hs. by apply limit_must_be_integer.
  - intros s Hl Hs Hi. by apply skip_must_be_integer.
  - intros s z Hl Hs Hz Hi. apply (limit_must_not_exceed_max r params s z); try done.
    intros ->. congruence.
  - intros s z Hlim Hs Hi Hz.
    assert (s ≠ "") as Hne by (intros ->; congruence).
    apply (skip_must_be_non_negative r params s z); try done.
    + destruct (dict_get params "_limit") as [l|]; [|done].
      destruct (Hlim l eq_refl) as (zl & Hzl & _). by apply (isint_true _ zl).
    + unfold present_and, int.
      destruct (dict_get params "_limit") as [l|]; [|done].
      destruct (Hlim l eq_refl) as (zl & Hzl & Hle). rewrite Hzl.
      destruct (str_truthy l); [|done]. simpl.
      by rewrite (proj2 (Z.ltb_ge _ _) Hle).
Qed.

End IntLaw.

(** ** Query assembly *)

Lemma elem_of_removelast {A} (x : A) (l : list A) : x ∈ removelast l → x ∈ l.
Proof.
  rewrite removelast_firstn_len. apply subseteq_take.
Qed.

Section SortLaw.

(** Sorting a cursor yields only documents of the cursor. *)
Hypothesis sort_docs_subset : ∀ order rows x, x ∈ sort_docs order rows → x ∈ rows.

Lemma matching_rows_match (r : Resource) (params : dict string) (flt : pyval)
    (st : store) (x : pyval) :
  x ∈ matching_rows r params flt st → x ∈ st ∧ doc_matches flt x = true.
Proof.
  unfold matching_rows. intros Hx.
  assert (x ∈ filter (fun d => doc_matches flt d = true) st) as Hf.
  { destruct (apply_ordering r params); [by eapply sort_docs_subset | done]. }
  apply list_elem_of_filter in Hf. by destruct Hf.
Qed.

(** X14: whatever the mode and the pagination, a fetch that succeeds returns
    only documents of the store that the compiled filter selects, counts all
    the documents that it selects, and leaves the store as it was;
    [has_more] is [None] exactly for a bulk update or a resource without
    pagination. *)
Theorem get_objects_returns_matching (r : Resource) (view_method : option method)
    (params : dict string) (st st' : store) (flt : pyval)
    (objs : list pyval) (has_more : option bool) (count : Z) :
  apply_filters r params = Ok flt →
  get_objects r view_method params st = (Ok (objs, has_more, count), st') →
  st' = st
  ∧ count = Z.of_nat (length (filter (fun d => doc_matches flt d = true) st))
  ∧ Forall (fun d => d ∈ st ∧ doc_matches flt d = true) objs
  ∧ (has_more = None ↔ is_bulk view_method = true ∨ paginate r = false).
Proof.
  intros Hf. unfold get_objects. rewrite Hf. simpl.
  assert (Hsub : ∀ (k : nat) (n : Z) (x : pyval),
            x ∈ (if n =? 0 then drop k (matching_rows r params flt st)
                 else take (Z.abs_nat n) (drop k (matching_rows r params flt st))) →
            x ∈ st ∧ doc_matches flt x = true).
  { intros k n x Hx. apply (matching_rows_match r params).
    destruct (n =? 0); [|apply subseteq_take in Hx]; by apply subseteq_drop in Hx. }
  destruct (is_bulk view_method) eqn:Hb; simpl.
  - destruct (cursor_rows r params flt st 0 (bulk_update_limit r)) as [Hrows Hcount].
    unfold find, cursor_limit. simpl. rewrite Hrows, Hcount.
    destruct (bulk_update_limit r <=? _); [done|].
    intros [= <- <- <- <-]. split; [done|]. split; [done|].
    split; [|by split; [left|]].
    apply Forall_forall. intros x Hx. by apply (Hsub 0%nat (bulk_update_limit r)).
  - destruct (get_skip_and_limit r params) as [[skip limit]|]; simpl; [|done].
    unfold cursor_skip. destruct (skip <? 0); simpl; [done|].
    destruct (cursor_rows r params flt st (Z.to_nat skip) (limit + 1)) as [Hrows Hcount].
    unfold find, cursor_limit. simpl. rewrite Hrows, Hcount.
    destruct (paginate r) eqn:Hp; simpl.
    + intros [= <- <- <- <-]. split; [done|]. split; [done|]. split.
      * apply Forall_forall. intros x Hx.
        apply (Hsub (Z.to_nat skip) (limit + 1)).
        destruct (limit <? _); [by apply elem_of_removelast | done].
      * split; [done | by intros [|]].
    + intros [= <- <- <- <-]. split; [done|]. split; [done|].
      split; [|by split; [right|]].
      apply Forall_forall. intros x Hx. by apply (Hsub (Z.to_nat skip) (limit + 1)).
Qed.

End SortLaw.

End WithExternal.

(** ** Field selection *)

Lemma to_set_elem (x : string) (l : list string) : x ∈ to_set l ↔ x ∈ l.
Proof.
  induction l as [|y l IH]; simpl; [done|].
  rewrite !elem_of_cons, list_elem_of_filter, IH.
  destruct (decide (x = y)) as [->|Hne]; [split; intros; by left|].
  split.
  - intros [?|[_ ?]]; [by left | by right].
  - intros [?|?]; [by left|]. right. split; [by intros -> | done].
Qed.

Lemma to_set_NoDup (l : list string) : NoDup (to_set l).
Proof.
  induction l as [|y l IH]; simpl; [constructor|].
  apply NoDup_cons. split; [|by apply NoDup_filter].
  rewrite list_elem_of_filter. by intros [? _].
Qed.

Lemma list_remove_sublist (x : string) (l l' : list string) :
  list_remove x l = Ok l' → x ∈ l ∧ l' `sublist_of` l ∧ length l = S (length l').
Proof.
  revert l'. induction l as [|y l IH]; intros l'; simpl; [done|].
  destruct (str_eqb x y) eqn:E.
  - apply str_eqb_eq in E as <-. intros [= <-].
    split; [apply list_elem_of_here|]. split; [by apply sublist_cons | done].
  - destruct (list_remove x l) as [l''|]; simpl; [|done]. intros [= <-].
    destruct (IH l'' eq_refl) as (Hin & Hsub & Hlen).
    split; [by apply list_elem_of_further|]. split; [by apply sublist_skip|].
    simpl. by rewrite Hlen.
Qed.

Lemma list_remove_absent (x : string) (l : list string) :
  x ∉ l → list_remove x l = Raise ValueError.
Proof.
  induction l as [|y l IH]; simpl; [done|].
  intros [Hne Hnot]%not_elem_of_cons. rewrite str_eqb_ne by done.
  by rewrite IH.
Qed.

Lemma remove_each_sublist (not_fields requested res : list string) :
  remove_each not_fields requested = Ok res → res `sublist_of` requested.
Proof.
  revert requested. induction not_fields as [|f nf IH]; intros requested; simpl.
  - by intros [= <-].
  - destruct (list_remove f requested) as [req'|e] eqn:Hr; simpl; [|done].
    intros Hres. destruct (list_remove_sublist _ _ _ Hr) as (_ & Hsub & _).
    etrans; [by apply IH | done].
Qed.

(** X15: the loop over [_not_fields]: when it succeeds, every named field
    was selected, and the result is the selection in its order with one
    entry less per name; when a named field is not selected, it raises
    [ValueError], which is the only error it raises. *)
Theorem remove_each_selected (not_fields requested : list string) :
  (∀ res, remove_each not_fields requested = Ok res →
     res `sublist_of` requested
     ∧ (length res + length not_fields = length requested)%nat
     ∧ Forall (fun f => f ∈ requested) not_fields)
  ∧ ((∃ f, f ∈ not_fields ∧ f ∉ requested) →
     remove_each not_fields requested = Raise ValueError)
  ∧ (∀ e, remove_each not_fields requested = Raise e → e = ValueError).
Proof.
  revert requested.
  induction not_fields as [|f nf IH]; intros requested; simpl.
  - split; [|split].
    + intros res [= <-]. split; [done|]. split; [lia | constructor].
    + by intros (f & ?%elem_of_nil & _).
    + done.
  - destruct (list_remove f requested) as [req'|e] eqn:Hr; simpl.
    + destruct (list_remove_sublist _ _ _ Hr) as (Hin & Hsub & Hlen).
      destruct (IH req') as (IH1 & IH2 & IH3). split; [|split].
      * intros res Hres. destruct (IH1 res Hres) as (Hs & Hl & Hall).
        split; [by etrans|]. split; [lia|].
        apply Forall_cons. split; [done|].
        eapply Forall_impl; [done|]. intros g Hg.
        exact (elem_of_sublist _ _ _ Hg Hsub).
      * intros (g & [->|Hg]%elem_of_cons & Hnot); [done|].
        apply IH2. exists g. split; [done|].
        intros Hg'. apply Hnot. exact (elem_of_sublist _ _ _ Hg' Hsub).
      * done.
    + assert (e = ValueError) as ->.
      { clear -Hr. revert e Hr. induction requested as [|y l IHl]; simpl; intros e.
        - by intros [= <-].
        - destruct (str_eqb f y); [done|].
          destruct (list_remove f l); simpl; [done|]. intros [= <-]. by apply IHl. }
      split; [done|]. split; [done|]. by intros e [= <-].
Qed.

(** X16: whatever the client asks for with [_fields] and [_not_fields], the
    fields returned are among the fields of the resource (or among the
    [fields] argument, when it is given). *)
Theorem get_requested_fields_allowed (r : Resource)
    (fields_kw : option (list string)) (params : option (dict string))
    (res : list string) :
  get_requested_fields r fields_kw params = Ok res →
  ∀ f, f ∈ res → f ∈ default (get_fields r) fields_kw.
Proof.
  unfold get_requested_fields.
  set (fields := default (get_fields r) fields_kw).
  assert (Hall : ∀ f, f ∈ (match fields_kw with
                           | Some fs => (fs, to_set fs)
                           | None => (get_fields r,
                                      set_union (get_fields r) (get_optional_fields r))
                           end).2 → f ∈ fields).
  { intros f. unfold fields. destruct fields_kw as [fs|]; simpl.
    - by rewrite to_set_elem.
    - unfold set_union, get_optional_fields. by rewrite to_set_elem, app_nil_r. }
  assert (Hfst : (match fields_kw with
                  | Some fs => (fs, to_set fs)
                  | None => (get_fields r,
                             set_union (get_fields r) (get_optional_fields r))
                  end).1 = fields).
  { unfold fields. by destruct fields_kw. }
  destruct (match fields_kw with
            | Some fs => (fs, to_set fs)
            | None => _
            end) as [fs all_fields_set]. simpl in *. subst fs.
  destruct params as [p|]; [|done].
  assert (Hsel : ∀ (only : option (list string)) f,
            f ∈ match only with
                | Some only_fields =>
                    if list_mem "_all" only_fields then all_fields_set
                    else filter (fun actual_field =>
                                   list_mem actual_field all_fields_set = true)
                                (reverse_rename r <$> only_fields)
                | None => fields
                end → f ∈ fields).
  { intros [only|] f; [|done].
    destruct (list_mem "_all" only); [apply Hall|].
    intros [Hm _]%list_elem_of_filter. apply Hall. by apply list_mem_spec. }
  destruct (dict_get p "_not_fields") as [v|].
  - intros Hres f Hf.
    eapply Hsel. exact (elem_of_sublist _ _ _ Hf (remove_each_sublist _ _ _ Hres)).
  - intros [= <-] f Hf. eapply Hsel. exact Hf.
Qed.

(** ** Sub-resource delegation *)

Section WithExternal.
Context `{External}.

Lemma subresource_child (r s : Resource) (obj : pyval) :
  _subresource r obj = Ok (Some s) →
  name s ≠ name r ∧ init_assertion s = true
  ∧ ∃ k n, dict_get (child_document_resources r) k = Some n ∧ s = resource_class n.
Proof.
  unfold _subresource.
  assert (Hn : ∀ k n, dict_get (child_document_resources r) k = Some n →
            (let s' := resource_class n in
             if str_eqb (name s') (name r) then Ok None
             else if init_assertion s' then Ok (Some s') else Raise AssertionError)
            = Ok (Some s) →
            name s ≠ name r ∧ init_assertion s = true
            ∧ ∃ k n, dict_get (child_document_resources r) k = Some n
                     ∧ s = resource_class n).
  { intros k n Hk. cbn zeta.
    destruct (str_eqb (name (resource_class n)) (name r)) eqn:E; [done|].
    destruct (init_assertion (resource_class n)) eqn:Ea; [|done]. intros [= <-].
    split; [intros He; by rewrite He, str_eqb_refl in E|].
    split; [done|]. by exists k, n. }
  destruct (dict_get (child_document_resources r) (class_of obj)) as [c|] eqn:Hc;
    cbn [mbind result_bind]; [by apply (Hn _ _ Hc)|].
  destruct (default_child_resource_document r) as [d|]; cbn [mbind result_bind]; [|done].
  destruct (str_truthy d); cbn [mbind result_bind]; [|done].
  destruct (dict_get (child_document_resources r) d) as [c|] eqn:Hd;
    cbn [mbind result_bind]; [|done].
  by apply (Hn _ _ Hd).
Qed.

Lemma subresource_errors (r : Resource) (obj : pyval) (e : exn) :
  _subresource r obj = Raise e → (∃ d, e = KeyError d) ∨ e = AssertionError.
Proof.
  unfold _subresource.
  assert (Hn : ∀ n,
            (let s' := resource_class n in
             if str_eqb (name s') (name r) then Ok None
             else if init_assertion s' then Ok (Some s') else Raise AssertionError)
            = Raise e → (∃ d, e = KeyError d) ∨ e = AssertionError).
  { intros n. cbn zeta.
    destruct (str_eqb (name (resource_class n)) (name r)); [done|].
    destruct (init_assertion (resource_class n)); [done|]. intros [= <-]. by right. }
  destruct (dict_get (child_document_resources r) (class_of obj)) as [c|];
    cbn [mbind result_bind]; [by apply Hn|].
  destruct (default_child_resource_document r) as [d|]; cbn [mbind result_bind]; [|done].
  destruct (str_truthy d); cbn [mbind result_bind]; [|done].
  destruct (dict_get (child_document_resources r) d) as [c|];
    cbn [mbind result_bind]; [by apply Hn|].
  intros [= <-]. left. by eexists.
Qed.

Lemma handler_mono (fuel fuel' : nat) (r h : Resource) (obj : pyval) :
  (fuel ≤ fuel')%nat → handler fuel r obj = Ok h → handler fuel' r obj = Ok h.
Proof.
  revert fuel' r. induction fuel as [|fuel IH]; intros fuel' r Hle;
    rewrite !(handler_unfold _ r);
    destruct (_subresource r obj) as [[s|]|e]; cbn [mbind result_bind]; try done.
  destruct fuel' as [|fuel']; [lia|]. apply IH. lia.
Qed.

Lemma handler_cycle (fuel : nat) (r s : Resource) (obj : pyval) :
  _subresource r obj = Ok (Some s) → _subresource s obj = Ok (Some r) →
  handler fuel r obj = Raise RecursionError.
Proof.
  revert r s. induction fuel as [|fuel IH]; intros r s Hr Hs;
    rewrite handler_unfold, Hr; cbn [mbind result_bind]; [done|].
  by apply (IH s r).
Qed.

(** X17: the chain of delegations that [serialize] and [update_object]
    follow.  When it ends, it ends on a resource that keeps the object for
    itself and that is the delegating resource or an instance whose
    [__init__] passed its assertion, and more room for recursion gives
    the same resource.  Its errors are the [KeyError] of a default child
    that is not in the table, the [AssertionError] of a sub-resource
    class whose rename map sends two fields to one name, and the
    [RecursionError] of a chain that is longer than the room there is.
    Two resources that hand the object to each other never settle: the
    chain is a [RecursionError] however much room there is. *)
Theorem handler_keeps_object (fuel : nat) (r : Resource) (obj : pyval) :
  (∀ h, handler fuel r obj = Ok h →
     _subresource h obj = Ok None
     ∧ (h = r ∨ init_assertion h = true)
     ∧ ∀ fuel', (fuel ≤ fuel')%nat → handler fuel' r obj = Ok h)
  ∧ (∀ e, handler fuel r obj = Raise e →
       (∃ d, e = KeyError d) ∨ e = AssertionError ∨ e = RecursionError)
  ∧ (∀ s, _subresource r obj = Ok (Some s) → _subresource s obj = Ok (Some r) →
       ∀ fuel', handler fuel' r obj = Raise RecursionError).
Proof.
  split; [|split].
  - intros h Hh. split; [|split].
    + revert r Hh. induction fuel as [|fuel IH]; intros r;
        rewrite handler_unfold;
        destruct (_subresource r obj) as [[s|]|e] eqn:Hs; cbn [mbind result_bind];
        try done; try (by intros [= <-]).
      apply IH.
    + revert r Hh. induction fuel as [|fuel IH]; intros r;
        rewrite handler_unfold;
        destruct (_subresource r obj) as [[s|]|e] eqn:Hs; cbn [mbind result_bind];
        try done; try (intros [= <-]; by left).
      intros Hh. right. destruct (IH s Hh) as [->|Ha]; [|done].
      by destruct (subresource_child _ _ _ Hs) as (_ & Ha & _).
    + intros fuel' Hle. by apply (handler_mono fuel).
  - revert r. induction fuel as [|fuel IH]; intros r e;
      rewrite handler_unfold;
      destruct (_subresource r obj) as [[s|]|e'] eqn:Hs; cbn [mbind result_bind];
      try done.
    + intros [= <-]. by right; right.
    + intros [= <-]. destruct (subresource_errors _ _ _ Hs) as [?|?]; [by left | by right; left].
    + apply IH.
    + intros [= <-]. destruct (subresource_errors _ _ _ Hs) as [?|?]; [by left | by right; left].
  - intros s Hr Hs fuel'. by apply (handler_cycle fuel' r s).
Qed.

End WithExternal.

Section WithExternal.
Context `{External}.

(** ** Projection *)

Lemma dict_set_keys {V} (d : dict V) (k : string) (v : V) :
  (dict_set d k v).*1 = if dict_mem d k then d.*1 else d.*1 ++ [k].
Proof.
  unfold dict_mem. induction d as [|[k' v'] d IH]; [done|].
  cbn [dict_set dict_get]. destruct (str_eqb k k') eqn:E.
  - rewrite !fmap_cons. apply str_eqb_eq in E as <-. done.
  - rewrite !fmap_cons, IH. by destruct (dict_get d k).
Qed.

Lemma dict_set_NoDup {V} (d : dict V) (k : string) (v : V) :
  NoDup d.*1 → NoDup (dict_set d k v).*1.
Proof.
  intros Hnd. rewrite dict_set_keys. unfold dict_mem.
  destruct (dict_get d k) eqn:Hg; [done|].
  apply dict_get_None in Hg.
  apply NoDup_app. split; [done|]. split; [|apply NoDup_singleton].
  intros x Hx ->%list_elem_of_singleton. done.
Qed.

Lemma dict_set_keys_elem {V} (d : dict V) (k x : string) (v : V) :
  x ∈ (dict_set d k v).*1 → x ∈ d.*1 ∨ x = k.
Proof.
  rewrite dict_set_keys. destruct (dict_mem d k); [by left|].
  intros [?|?%list_elem_of_singleton]%elem_of_app; [by left | by right].
Qed.

Lemma serialize_loop_keys (r : Resource) (obj : pyval) (requested : list string)
    (data out : dict pyval) :
  serialize_loop r obj requested data = Ok out →
  NoDup data.*1 →
  NoDup out.*1
  ∧ ∀ k, k ∈ out.*1 → k ∈ data.*1 ∨ ∃ f, f ∈ requested ∧ k = rename r f.
Proof.
  revert data. induction requested as [|field rest IH]; intros data; simpl.
  - intros [= <-] Hnd. split; [done | by left].
  - assert (Hstep : ∀ value,
              serialize_loop r obj rest (dict_set data (rename r field) value) = Ok out →
              NoDup data.*1 →
              NoDup out.*1
              ∧ ∀ k, k ∈ out.*1 →
                     k ∈ data.*1 ∨ ∃ f, f ∈ field :: rest ∧ k = rename r f).
    { intros value Hl Hnd.
      destruct (IH _ Hl (dict_set_NoDup _ _ _ Hnd)) as [Hout Hkeys].
      split; [done|]. intros k Hk.
      destruct (Hkeys k Hk) as [Hd|(f & Hf & ->)].
      - apply dict_set_keys_elem in Hd as [Hd| ->]; [by left|].
        right. exists field. split; [apply list_elem_of_here | done].
      - right. exists f. split; [by apply list_elem_of_further | done]. }
    assert (Hskip : serialize_loop r obj rest data = Ok out →
              NoDup data.*1 →
              NoDup out.*1
              ∧ ∀ k, k ∈ out.*1 →
                     k ∈ data.*1 ∨ ∃ f, f ∈ field :: rest ∧ k = rename r f).
    { intros Hl Hnd. destruct (IH _ Hl Hnd) as [Hout Hkeys].
      split; [done|]. intros k Hk.
      destruct (Hkeys k Hk) as [Hd|(f & Hf & ->)]; [by left|].
      right. exists f. split; [by apply list_elem_of_further | done]. }
    destruct (list_mem field (callables r)).
    + destruct (call_attr (name r) field obj) as [value|]; simpl; [|done].
      apply Hstep.
    + destruct (get_field_value r obj field None) as [value|e]; [apply Hstep|].
      destruct e; try done.
Qed.

(** X18: the output of [serialize] is a dictionary: its keys are distinct,
    and each is the public name of a requested field. *)
Theorem serialize_here_keys (r : Resource) (obj : pyval)
    (fields_kw : option (list string)) (params : option (dict string))
    (out : dict pyval) :
  serialize_here r obj fields_kw params = Ok out →
  NoDup out.*1
  ∧ ∃ requested, get_requested_fields r fields_kw params = Ok requested
      ∧ ∀ k, k ∈ out.*1 → ∃ f, f ∈ requested ∧ k = rename r f.
Proof.
  unfold serialize_here.
  destruct (get_requested_fields r fields_kw params) as [requested|]; simpl; [|done].
  intros Hl. destruct (serialize_loop_keys _ _ _ _ _ Hl (NoDup_nil_2)) as [Hnd Hk].
  split; [done|]. exists requested. split; [done|].
  intros k Hin. destruct (Hk k Hin) as [Hd|?]; [|done]. by apply elem_of_nil in Hd.
Qed.

End WithExternal.

Section WithExternal.
Context `{External}.




Lemma mapM_Forall2 {A B} (f : A → result B) (l : list A) (l' : list B) :
  mapM f l = Ok l' ↔ Forall2 (fun x y => f x = Ok y) l l'.
Proof.
  revert l'. induction l as [|x l IH]; intros l'; simpl.
  - split; [intros [= <-]; constructor | by intros ->%Forall2_nil_inv_l].
  - split.
    + destruct (f x) as [y|] eqn:Hx; simpl; [|done].
      destruct (mapM f l) as [ys|] eqn:Hl; simpl; [|done]. intros [= <-].
      constructor; [done | by apply IH].
    + intros (y & ys & Hy & Hys & ->)%Forall2_cons_inv_l.
      rewrite Hy. simpl. apply IH in Hys. by rewrite Hys.
Qed.

(** X20: a map field: with a declared element field every value is
    serialized by it and the keys stay as they are, in their order; a value
    that is not a [dict] is an [AttributeError]; without an element field,
    and with scalar elements, the map comes back unchanged. *)
Theorem serialize_map_field (field_name : string) (f : finst) (obj : pyval) :
  (∀ d out, serialize_declared field_name (FDict (Some f)) obj (VDict d) = Ok out →
     ∃ d', out = VDict d' ∧ d'.*1 = d.*1
           ∧ Forall2 (fun kv kv' =>
                        serialize_declared field_name f kv.2 kv.2 = Ok kv'.2) d d')
  ∧ (∀ v, (∀ d, v ≠ VDict d) →
       serialize_declared field_name (FDict (Some f)) obj v = Raise AttributeError)
  ∧ (∀ v, serialize_declared field_name (FDict None) obj v = Ok v)
  ∧ (∀ d, serialize_declared field_name (FDict (Some FScalar)) obj (VDict d)
          = Ok (VDict d)).
Proof.
  split; [|split; [|split]].
  - intros d out. cbn [serialize_declared].
    destruct (mapM _ d) as [d'|] eqn:Hm; simpl; [|done]. intros [= <-].
    apply mapM_Forall2 in Hm. exists d'. split; [done|].
    assert (Hg : Forall2 (fun kv kv' : string * pyval =>
                            kv'.1 = kv.1
                            ∧ serialize_declared field_name f kv.2 kv.2 = Ok kv'.2) d d').
    { eapply Forall2_impl; [exact Hm|]. intros [k v] [k' v'] Hkv. simpl in *.
      destruct (serialize_declared field_name f v v) as [w|]; [|done].
      simpl in Hkv. by injection Hkv as <- <-. }
    split.
    + clear Hm. induction Hg as [|kv kv' d d' [Hk _] Hg IH]; [done|].
      by rewrite !fmap_cons, Hk, IH.
    + eapply Forall2_impl; [exact Hg|]. by intros kv kv' [_ ?].
  - intros v Hv. cbn [serialize_declared]. destruct v; try done. by destruct (Hv d).
  - done.
  - intros d. cbn [serialize_declared].
    assert (Hid : ∀ g : string * pyval → result (string * pyval),
              (∀ kv, g kv = Ok kv) → mapM g d = Ok d).
    { intros g Hg. induction d as [|kv d IH]; [done|]. cbn [mapM].
      rewrite Hg. simpl. by rewrite IH. }
    rewrite Hid; [done|]. by intros [k v].
Qed.

End WithExternal.

(** ** Mutation *)

Section WithExternal.
Context `{External}.

(** X21: the object dictionary is the data restricted, in its order, to the
    declared fields of the document; for an update it is further restricted
    to the fields that the raw payload names, after reverse renaming.
    Without data the call is an [AttributeError]. *)
Theorem get_object_dict_restricts (r : Resource) (s : request_state)
    (data_arg : option (dict pyval)) (update : bool) :
  let data := if data_truthy (data s) then Resources.data s else data_arg in
  match data with
  | None => get_object_dict r s data_arg update = Raise AttributeError
  | Some d =>
      ∃ ud, get_object_dict r s data_arg update = Ok ud
        ∧ ud `sublist_of` d
        ∧ ∀ f v, (f, v) ∈ ud ↔
            (f, v) ∈ d ∧ f ∈ (doc_fields (document r)).*1
            ∧ (update = true →
               ∃ k, k ∈ (raw_data s).*1 ∧ f = reverse_rename r k)
  end.
Proof.
  intros data. unfold get_object_dict. fold data.
  destruct data as [d|]; [|done].
  eexists. split; [done|]. split; [apply sublist_filter|].
  intros f v. rewrite list_elem_of_filter, list_mem_spec. simpl.
  destruct update.
  - rewrite list_elem_of_filter, list_mem_spec, !to_set_elem, list_elem_of_fmap.
    split.
    + intros [[(k & -> & Hk) Hf] Hin]. split; [done|]. split; [done|].
      intros _. by exists k.
    + intros (Hin & Hf & Hk). destruct (Hk eq_refl) as (k & Hk' & ->).
      split; [|done]. split; [by exists k | done].
  - rewrite to_set_elem. split.
    + intros [Hf Hin]. by split; [|split].
    + by intros (Hin & Hf & _).
Qed.

End WithExternal.

(** ** The rename pass *)

Lemma dict_get_app {V} (d1 d2 : dict V) (k : string) :
  dict_get (d1 ++ d2) k
  = match dict_get d1 k with Some v => Some v | None => dict_get d2 k end.
Proof.
  induction d1 as [|[k' v'] d1 IH]; [done|]. cbn [app dict_get].
  by destruct (str_eqb k k').
Qed.

Lemma dict_get_rev {V} (d : dict V) (k : string) :
  NoDup d.*1 → dict_get (reverse d) k = dict_get d k.
Proof.
  intros Hnd. destruct (dict_get d k) as [v|] eqn:Hg.
  - apply dict_get_NoDup.
    + rewrite fmap_reverse. by rewrite reverse_Permutation.
    + apply elem_of_reverse. by apply dict_get_elem.
  - apply dict_get_None. apply dict_get_None in Hg.
    by rewrite fmap_reverse, elem_of_reverse.
Qed.

Lemma foldl_set_lookup {V} (l : dict V) (a : dict V) (k : string) :
  dict_get (foldl (fun d kx => dict_set d kx.1 kx.2) a l) k
  = match dict_get (reverse l) k with Some v => Some v | None => dict_get a k end.
Proof.
  revert a. induction l as [|[k0 v0] l IH]; intros a; [done|].
  cbn [foldl]. rewrite IH, reverse_cons, dict_get_app. simpl.
  destruct (dict_get (reverse l) k); [done|].
  destruct (str_eqb k k0) eqn:E.
  - apply str_eqb_eq in E as ->. apply dict_get_set_eq.
  - apply dict_get_set_ne. intros ->. by rewrite str_eqb_refl in E.
Qed.

Lemma foldl_set_NoDup {V} (l : dict V) (a : dict V) :
  NoDup a.*1 → NoDup (foldl (fun d kx => dict_set d kx.1 kx.2) a l).*1.
Proof.
  revert a. induction l as [|[k0 v0] l IH]; intros a Hnd; [done|].
  simpl. apply IH. by apply dict_set_NoDup.
Qed.

Lemma dict_del_lookup {V} (d d' : dict V) (k : string) :
  NoDup d.*1 → dict_del d k = Ok d' →
  NoDup d'.*1 ∧ (∀ y, y ∈ d'.*1 → y ∈ d.*1)
  ∧ ∀ y, dict_get d' y = if str_eqb y k then None else dict_get d y.
Proof.
  revert d'. induction d as [|[k0 v0] d IH]; intros d'; [done|].
  rewrite fmap_cons, NoDup_cons. intros [Hk Hnd]. cbn [dict_del].
  destruct (str_eqb k k0) eqn:E.
  - apply str_eqb_eq in E as <-. intros [= <-].
    split; [done|]. split; [intros y Hy; by apply list_elem_of_further|].
    intros y. cbn [dict_get]. destruct (str_eqb y k) eqn:E'; [|done].
    apply str_eqb_eq in E' as ->. by apply dict_get_None.
  - destruct (dict_del d k) as [d''|] eqn:Hd; simpl; [|done]. intros [= <-].
    destruct (IH d'' Hnd eq_refl) as (Hnd' & Hsub & Hl).
    split; [|split].
    + rewrite fmap_cons. apply NoDup_cons. split; [|done]. intros Hin. by apply Hk, Hsub.
    + intros y. rewrite !fmap_cons, !elem_of_cons. intros [->|Hy]; [by left|].
      right. by apply Hsub.
    + intros y. cbn [dict_get]. rewrite Hl.
      destruct (str_eqb y k0) eqn:E0; [|done].
      apply str_eqb_eq in E0 as ->. rewrite str_eqb_ne; [done|].
      intros ->. by rewrite str_eqb_refl in E.
Qed.

Lemma dict_del_present {V} (d : dict V) (k : string) :
  k ∈ d.*1 → ∃ d', dict_del d k = Ok d'.
Proof.
  induction d as [|[k0 v0] d IH]; [by intros ?%elem_of_nil|].
  rewrite fmap_cons, elem_of_cons. cbn [dict_del]. intros Hin.
  destruct (str_eqb k k0) eqn:E; [by eexists|].
  destruct Hin as [->|Hin]; [by rewrite str_eqb_refl in E|].
  destruct (IH Hin) as [d' ->]. by eexists.
Qed.

Lemma del_each_lookup {V} (keys : list string) (d : dict V) :
  NoDup d.*1 → NoDup keys → Forall (fun k => k ∈ d.*1) keys →
  ∃ d', del_each keys d = Ok d' ∧ NoDup d'.*1
        ∧ ∀ y, dict_get d' y = if bool_decide (y ∈ keys) then None else dict_get d y.
Proof.
  revert d. induction keys as [|k keys IH]; intros d Hnd Hk Hall.
  - exists d. split; [done|]. split; [done|]. intros y.
    rewrite bool_decide_eq_false_2; [done | apply not_elem_of_nil].
  - apply NoDup_cons in Hk as [Hk Hks]. apply Forall_cons in Hall as [Hin Hall].
    destruct (dict_del_present d k Hin) as [d1 Hd1].
    destruct (dict_del_lookup d d1 k Hnd Hd1) as (Hnd1 & Hsub1 & Hl1).
    destruct (IH d1 Hnd1 Hks) as (d' & Hd' & Hnd' & Hl').
    { apply Forall_forall. intros y Hy. rewrite Forall_forall in Hall.
      destruct (decide (y ∈ d1.*1)) as [|Hn]; [done|]. exfalso.
      apply dict_get_None in Hn. rewrite Hl1 in Hn.
      rewrite str_eqb_ne in Hn by (intros ->; done).
      apply dict_get_None in Hn. by apply Hn, Hall. }
    exists d'. cbn [del_each]. rewrite Hd1. simpl. split; [done|]. split; [done|].
    intros y. rewrite Hl', Hl1.
    destruct (decide (y = k)) as [->|Hne].
    + rewrite str_eqb_refl. rewrite (bool_decide_eq_true_2 (k ∈ k :: keys)) by apply list_elem_of_here.
      by destruct (bool_decide (k ∈ keys)).
    + rewrite str_eqb_ne by done.
      destruct (decide (y ∈ keys)) as [Hy|Hy].
      * rewrite !bool_decide_eq_true_2; [done | by apply list_elem_of_further | done].
      * rewrite !bool_decide_eq_false_2; [done | | done].
        by intros [?|?]%elem_of_cons.
Qed.

Lemma omap_cons_eq {A B} (f : A → option B) (x : A) (l : list A) :
  omap f (x :: l) = match f x with Some y => y :: omap f l | None => omap f l end.
Proof. reflexivity. Qed.

Lemma pairs_keys (rn : dict string) (raw : dict pyval) (y : string) :
  y ∈ (omap (fun kv : string * string => x ← dict_get raw kv.2; Some (kv.1, x)) rn).*1 →
  y ∈ rn.*1.
Proof.
  rewrite !list_elem_of_fmap. intros ([k' x] & -> & Hin).
  apply list_elem_of_omap in Hin as ([k v] & Hin & Hg). cbn [fst snd] in Hg.
  destruct (dict_get raw v) as [x'|]; [|done]. cbn in Hg. injection Hg as <- <-.
  by exists (k, v).
Qed.

Lemma pairs_NoDup (rn : dict string) (raw : dict pyval) :
  NoDup rn.*1 →
  NoDup (omap (fun kv : string * string => x ← dict_get raw kv.2; Some (kv.1, x)) rn).*1.
Proof.
  induction rn as [|[k v] rn IH]; [done|].
  rewrite fmap_cons, NoDup_cons. intros [Hk Hnd]. rewrite omap_cons_eq. cbn [fst snd].
  destruct (dict_get raw v) as [x|]; cbn [mbind option_bind]; [|by apply IH].
  rewrite fmap_cons. apply NoDup_cons. split; [|by apply IH].
  intros Hin. by apply Hk, (pairs_keys rn raw).
Qed.

Lemma pairs_lookup (rn : dict string) (raw : dict pyval) (y : string) :
  NoDup rn.*1 →
  dict_get (omap (fun kv : string * string => x ← dict_get raw kv.2; Some (kv.1, x)) rn) y
  = dict_get rn y ≫= dict_get raw.
Proof.
  induction rn as [|[k v] rn IH]; [done|].
  rewrite fmap_cons, NoDup_cons. intros [Hk Hnd]. rewrite omap_cons_eq.
  cbn [fst snd dict_get].
  destruct (str_eqb y k) eqn:E.
  - apply str_eqb_eq in E as ->. cbn [mbind option_bind].
    destruct (dict_get raw v) as [x|]; cbn [mbind option_bind dict_get].
    + by rewrite str_eqb_refl.
    + apply dict_get_None. intros Hin. by apply Hk, (pairs_keys rn raw).
  - destruct (dict_get raw v) as [x|]; cbn [mbind option_bind dict_get];
      [rewrite E|]; by apply IH.
Qed.

Lemma fields_to_delete_elem (r : Resource) (raw : dict pyval) (y : string) :
  y ∈ fields_to_delete r raw ↔ y ∈ (rename_fields r).*2 ∧ is_Some (dict_get raw y).
Proof.
  unfold fields_to_delete, get_rename_fields.
  rewrite list_elem_of_omap, list_elem_of_fmap. split.
  - intros ([k v] & Hin & Hy). cbn [fst snd] in Hy.
    destruct (dict_get raw v) as [x|] eqn:Hv; [|done]. cbn in Hy.
    injection Hy as <-. split; [by exists (k, v) | by rewrite Hv].
  - intros (([k v] & -> & Hin) & [x Hx]). exists (k, v). split; [done|].
    cbn [fst snd] in *. by rewrite Hx.
Qed.

Lemma fields_to_delete_NoDup (r : Resource) (raw : dict pyval) :
  NoDup (rename_fields r).*2 → NoDup (fields_to_delete r raw).
Proof.
  unfold fields_to_delete, get_rename_fields.
  induction (rename_fields r) as [|[k v] rn IH]; [constructor|].
  rewrite fmap_cons, NoDup_cons. intros [Hv Hnd]. rewrite omap_cons_eq. cbn [fst snd].
  destruct (dict_get raw v); cbn [mbind option_bind]; [|by apply IH].
  apply NoDup_cons. split; [|by apply IH].
  rewrite list_elem_of_omap. intros ([k' v'] & Hin & Hy). cbn [fst snd] in Hy.
  destruct (dict_get raw v'); [|done]. cbn in Hy. injection Hy as ->.
  apply Hv, list_elem_of_fmap. by exists (k', v).
Qed.

(** X22: the rename pass, for a rename map without two fields under one
    public name: it raises nothing; every underlying name whose public name
    is in the payload gets the value the payload has under the public name,
    read before any writing, so that renames do not chain; a public name
    found in the payload is gone, unless it is written as an underlying
    name; every other key keeps its value. *)
Theorem rename_data_lookup (r : Resource) (raw : dict pyval) :
  NoDup (rename_fields r).*1 → NoDup (rename_fields r).*2 → NoDup raw.*1 →
  ∃ data, rename_data r raw = Ok data
    ∧ NoDup data.*1
    ∧ ∀ y, dict_get data y
           = match dict_get (rename_fields r) y ≫= dict_get raw with
             | Some x => Some x
             | None =>
                 if bool_decide (y ∈ (rename_fields r).*2 ∧ is_Some (dict_get raw y))
                 then None
                 else dict_get raw y
             end.
Proof.
  intros Hkeys Hvals Hraw.
  destruct (del_each_lookup (fields_to_delete r raw) raw Hraw
              (fields_to_delete_NoDup r raw Hvals)) as (d' & Hd' & Hnd' & Hl').
  { apply Forall_forall. intros y [_ [x Hx]]%fields_to_delete_elem.
    apply dict_get_elem in Hx. apply list_elem_of_fmap. by exists (y, x). }
  eexists. unfold rename_data. rewrite Hd'. simpl. split; [done|].
  split; [by apply foldl_set_NoDup|].
  intros y. rewrite foldl_set_lookup.
  rewrite dict_get_rev by (apply foldl_set_NoDup; constructor).
  unfold fields_to_update. rewrite foldl_set_lookup. simpl.
  rewrite dict_get_rev by (by apply pairs_NoDup).
  unfold get_rename_fields. rewrite pairs_lookup by done.
  destruct (dict_get (rename_fields r) y ≫= dict_get raw); [done|].
  rewrite Hl'. by rewrite (bool_decide_ext _ _ (fields_to_delete_elem r raw y)).
Qed.

(** ** URIs *)




Section WithExternal.
Context `{External}.


End WithExternal.

(** ** The properties on concrete requests *)

Import Concrete Examples.

Lemma elem_of_insert_sorted (field : string) (x y : pyval) (l : list pyval) :
  x ∈ insert_sorted field y l → x = y ∨ x ∈ l.
Proof.
  induction l as [|z l IH]; cbn [insert_sorted].
  - intros ->%list_elem_of_singleton. by left.
  - destruct (String.leb _ _).
    + intros [->|Hx]%elem_of_cons; [by left | by right].
    + intros [->|Hx]%elem_of_cons; [right; apply list_elem_of_here|].
      destruct (IH Hx) as [->|Hl]; [by left|]. right. by apply list_elem_of_further.
Qed.

Lemma concrete_sort_docs_subset (order : list string) (rows : list pyval) (x : pyval) :
  x ∈ Concrete.sort_docs order rows → x ∈ rows.
Proof.
  destruct order as [|field order]; [done|]. cbn [Concrete.sort_docs].
  induction rows as [|y rows IH]; [done|]. cbn [foldr].
  intros [->|Hx]%elem_of_insert_sorted; [apply list_elem_of_here|].
  by apply list_elem_of_further, IH.
Qed.

(** [PingResource] and [PongResource] hand users to each other. *)
Lemma handler_keeps_object_witness :
  handler 1000 PingResource (user "a") = Raise RecursionError.
Proof.
  apply (proj2 (proj2 (handler_keeps_object (H := concrete) 0 PingResource (user "a")))
           PongResource ltac:(vm_compute; reflexivity) ltac:(vm_compute; reflexivity)
           1000%nat).
Defined.

(** A resource hands users to [UserResource], which serializes them; a
    resource whose sub-resource class cannot be instantiated fails with
    the assertion of [__init__]. *)
Lemma serialize_delegates :
  serialize PersonResource (user "a") None (Some [("_fields", "nick")])
  = Ok [("nick", VStr "a")]
  ∧ serialize ParentResource (user "a") None (Some [("_fields", "nick")])
    = Raise AssertionError
  ∧ serialize PingResource (user "a") None (Some [("_fields", "nick")])
    = Raise RecursionError.
Proof. by vm_compute. Qed.

Lemma filter_param_exact_key_witness :
  filter_param UserResource "firstname" "Bob"
  = Ok (Some (VDict [("firstname", VStr "Bob")])).
Proof.
  apply (filter_param_exact_key (H := concrete) UserResource "firstname" "Bob"
           (field_filters [of_class Exact; of_class Ne]) (of_class Exact)
           (Some "Bob")); vm_compute; reflexivity.
Defined.

Lemma apply_filters_shape_witness :
  VDict [("$and", VList [VDict [("firstname", VStr "Bob")]])] = VDict []
  ∨ ∃ fs, fs ≠ []
      ∧ VDict [("$and", VList [VDict [("firstname", VStr "Bob")]])]
        = VDict [("$and", VList fs)]
      ∧ (length fs ≤ length [("firstname", "Bob"); ("zzz", "1")])%nat
      ∧ Forall (fun f => ∃ field x, f = VDict [(field, x)]) fs.
Proof.
  apply (apply_filters_shape (H := concrete) UserResource
           [("firstname", "Bob"); ("zzz", "1")]).
  vm_compute. reflexivity.
Defined.

Lemma init_assertion_injective_witness :
  init_assertion ChainResource = true ↔ NoDup ["b"; "c"].
Proof.
  apply (init_assertion_injective ChainResource).
  apply (bool_decide_unpack (NoDup ["a"; "b"])). vm_compute. exact I.
Defined.

Lemma reverse_rename_rename_witness :
  reverse_rename ChainResource (rename ChainResource "a") = "a".
Proof.
  apply (reverse_rename_rename ChainResource "a").
  - apply (bool_decide_unpack (NoDup ["a"; "b"])). vm_compute. exact I.
  - vm_compute. reflexivity.
  - left. apply list_elem_of_here.
Defined.

Lemma rename_reverse_rename_witness :
  rename ChainResource (reverse_rename ChainResource "c") = "c".
Proof.
  apply (rename_reverse_rename ChainResource "c").
  - apply (bool_decide_unpack (NoDup ["a"; "b"])). vm_compute. exact I.
  - vm_compute. reflexivity.
  - left. apply list_elem_of_further, list_elem_of_here.
Defined.

Lemma get_filters_lookup_witness :
  get_filters UserResource !! "nick"
  = field_filters <$> dict_get (filters UserResource) "nick".
Proof.
  apply (get_filters_lookup UserResource "nick").
  apply (bool_decide_unpack (NoDup ["firstname"; "lastname"; "nick"])).
  vm_compute. exact I.
Defined.

Lemma get_skip_and_limit_sanitized_witness :
  0 ≤ 1 ∧ 2 ≤ max_limit UserResource
  ∧ match dict_get [("_skip", "1"); ("_limit", "2")] "_skip" with
    | Some s => Concrete.py_int s = Some 1
    | None => 1 = 0
    end
  ∧ match dict_get [("_skip", "1"); ("_limit", "2")] "_limit" with
    | Some s => Concrete.py_int s = Some 2
    | None => 2 = Z.min (default_limit UserResource) (max_limit UserResource)
    end.
Proof.
  apply (get_skip_and_limit_sanitized (H := concrete) concrete_py_int_empty
           UserResource [("_skip", "1"); ("_limit", "2")] 1 2).
  - reflexivity.
  - vm_compute. reflexivity.
Defined.

Lemma get_skip_and_limit_accepts_witness :
  is_ok (get_skip_and_limit UserResource [("_limit", "2")]) = true
  ↔ (∀ s, dict_get [("_limit", "2")] "_limit" = Some s →
       ∃ z, Concrete.py_int s = Some z ∧ z ≤ max_limit UserResource)
    ∧ (∀ s, dict_get [("_limit", "2")] "_skip" = Some s →
         ∃ z, Concrete.py_int s = Some z ∧ 0 ≤ z).
Proof.
  apply (get_skip_and_limit_accepts (H := concrete) concrete_py_int_empty
           UserResource [("_limit", "2")]).
  reflexivity.
Defined.

Lemma get_skip_and_limit_errors_witness :
  get_skip_and_limit UserResource [("_skip", "-1")]
  = Raise (negative_skip_error "-1").
Proof.
  apply (proj2 (proj2 (proj2
           (get_skip_and_limit_errors (H := concrete) concrete_py_int_empty
              UserResource [("_skip", "-1")] eq_refl))) "-1" (-1)).
  - intros l Hl. discriminate Hl.
  - reflexivity.
  - vm_compute. reflexivity.
  - lia.
Defined.

Lemma get_objects_returns_matching_witness :
  five_users = five_users
  ∧ 5 = Z.of_nat (length (filter (fun d => Concrete.doc_matches (VDict []) d = true)
                            five_users))
  ∧ Forall (fun d => d ∈ five_users ∧ Concrete.doc_matches (VDict []) d = true)
           [user "b"; user "c"]
  ∧ (Some true = None ↔ is_bulk (Some Fetch) = true ∨ paginate UserResource = false).
Proof.
  apply (get_objects_returns_matching (H := concrete) concrete_sort_docs_subset
           UserResource (Some Fetch) [("_skip", "1"); ("_limit", "2")]
           five_users five_users (VDict []) [user "b"; user "c"] (Some true) 5).
  - vm_compute. reflexivity.
  - vm_compute. reflexivity.
Defined.

Lemma get_requested_fields_allowed_witness :
  "nick" ∈ default (get_fields UserResource) None.
Proof.
  apply (get_requested_fields_allowed UserResource None
           (Some [("_fields", "nick,zzz")]) ["nick"]).
  - vm_compute. reflexivity.
  - apply list_elem_of_here.
Defined.

Lemma serialize_here_keys_witness :
  NoDup [("nick", VStr "a")].*1
  ∧ ∃ requested,
      get_requested_fields UserResource None (Some [("_fields", "nick")])
      = Ok requested
      ∧ ∀ k, k ∈ [("nick", VStr "a")].*1 →
             ∃ f, f ∈ requested ∧ k = rename UserResource f.
Proof.
  apply (serialize_here_keys (H := concrete) UserResource (user "a") None
           (Some [("_fields", "nick")]) [("nick", VStr "a")]).
  vm_compute. reflexivity.
Defined.


(** With the renames [a] to [b] and [b] to [c], the value sent as [b]
    ends under [a] and the value sent as [c] under [b]. *)
Lemma rename_data_lookup_witness :
  ∃ data,
    rename_data ChainResource [("b", VInt 1); ("c", VInt 2); ("d", VInt 3)] = Ok data
    ∧ NoDup data.*1
    ∧ ∀ y, dict_get data y
           = match dict_get (rename_fields ChainResource) y
                   ≫= dict_get [("b", VInt 1); ("c", VInt 2); ("d", VInt 3)] with
             | Some x => Some x
             | None =>
                 if bool_decide
                      (y ∈ (rename_fields ChainResource).*2
                       ∧ is_Some (dict_get [("b", VInt 1); ("c", VInt 2); ("d", VInt 3)] y))
                 then None
                 else dict_get [("b", VInt 1); ("c", VInt 2); ("d", VInt 3)] y
             end.
Proof.
  apply (rename_data_lookup ChainResource [("b", VInt 1); ("c", VInt 2); ("d", VInt 3)]).
  - apply (bool_decide_unpack (NoDup ["a"; "b"])). vm_compute. exact I.
  - apply (bool_decide_unpack (NoDup ["b"; "c"])). vm_compute. exact I.
  - apply (bool_decide_unpack (NoDup ["b"; "c"; "d"])). vm_compute. exact I.
Defined.


End Coverage.
